(** * postprocess.py: GoPro MP4 files to cleaned GPX tracks and maps

    A shallow embedding of [src/postprocess.py] and the properties of its
    timestamp scanner, file ordering, renderer and per-file pipeline.

    Conventions of the embedding.
    - A Python [int] is a [Z]; a list index that the code only ever produces
      with [enumerate] is a [nat].
    - A Python [float] is a binary64 primitive float.
    - A Python [str] is a [string]; its order is the code-point order.
    - A raised exception is the left injection of a sum; the exception
      classes the code can meet are the constructors of [exn].
    - [print] appends a structured line to the output of the [Out] monad;
      the rendering of a line to text is left to Python's formatting.
    - The tracks, segments and points of a track structure are distinct
      objects, as [gpxpy.parse] builds them: a function that mutates the
      structure in place is a function to the structure it leaves.
    - Calls that leave the program (sub-processes, the file system, gpxpy's
      parser and filters, the elevation model, saving a map) are the
      constructors of [call]; a program that makes them is a [prog], and it
      is run against an arbitrary handler. *)

From Stdlib Require Import String Ascii.
From Stdlib Require Import List ZArith Lia Bool Arith.
From Stdlib Require Import Permutation Sorted Floats Uint63.
Import ListNotations.

Set Implicit Arguments.

(** ** Exceptions, output lines and the [Out] monad *)

(** The exception classes the code can meet.  [ZeroDivisionError] is a
    subclass of Python's [ArithmeticError], [IndexError] of [LookupError];
    everything a collaborator raises is [External], with the class name. *)
Inductive exn : Type :=
| ZeroDivisionError
| IndexError
| External (cls : string).

Definition is_ArithmeticError (e : exn) : bool :=
  match e with
  | ZeroDivisionError => true
  | _ => false
  end.

(** [datetime.datetime] as gpxpy's [parse_time] builds it: an aware value,
    which Python compares by its instant.  The model keeps the instant, in
    microseconds since the epoch. *)
Definition datetime : Type := Z.

(** The values that meet in [p.time == last_time]: the sentinel is an
    [int], a point's time is [None] or a [datetime]. *)
Inductive pyobj : Type :=
| PyInt (n : Z)
| PyNone
| PyDatetime (t : datetime).

(** Python's [==] on these values: values of different classes are unequal
    (both [__eq__] return [NotImplemented] and the objects are distinct). *)
Definition py_eq (a b : pyobj) : bool :=
  match a, b with
  | PyInt m, PyInt n => Z.eqb m n
  | PyNone, PyNone => true
  | PyDatetime s, PyDatetime t => Z.eqb s t
  | _, _ => false
  end.

Definition time_obj (t : option datetime) : pyobj :=
  match t with
  | None => PyNone
  | Some d => PyDatetime d
  end.

(** ** The GPX data model (gpxpy's classes, the fields the code reads) *)

Record GPXTrackPoint : Type := mkPoint {
  time : option datetime;
  latitude : float;
  longitude : float;
  elevation : option float
}.

Record GPXTrackSegment : Type := mkSegment { points : list GPXTrackPoint }.

Record GPXTrack : Type := mkTrack { segments : list GPXTrackSegment }.

Record GPX : Type := mkGPX { tracks : list GPXTrack }.

(** What [get_uphill_downhill] and [get_moving_data] return. *)
Record UphillDownhill : Type := mkUD { uphill : float; downhill : float }.

Record MovingData : Type := mkMD {
  moving_time : float;
  stopped_time : float;
  moving_distance : float;
  stopped_distance : float;
  max_speed : float
}.

(** The lines the program prints, one constructor per [print] of the
    source. *)
Inductive output : Type :=
| OutTimeError (t : option datetime) (i : nat)
| OutRemoving (time_errors : list nat)
| OutText (s : string)
| OutOrder (mp4 : list string)
| OutProcessing (path : string)
| OutWriting (fn : string)
| OutUphillDownhill (ud : UphillDownhill)
| OutMovingData (md : MovingData).

(** Code that only prints and may raise. *)
Definition Out (A : Type) : Type := (list output * (exn + A))%type.

Definition ret {A} (a : A) : Out A := ([], inr a).

Definition raise {A} (e : exn) : Out A := ([], inl e).

Definition say (o : output) : Out unit := ([o], inr tt).

Definition bind {A B} (m : Out A) (f : A -> Out B) : Out B :=
  match m with
  | (o, inl e) => (o, inl e)
  | (o, inr a) => let (o', r) := f a in (o ++ o', r)
  end.

Declare Scope out_scope.
Delimit Scope out_scope with out.
Notation "x <- m ;; k" := (bind m (fun x => k))
  (at level 61, m at next level, right associativity) : out_scope.
Notation "m ;; k" := (bind m (fun _ => k))
  (at level 61, right associativity) : out_scope.
Open Scope out_scope.

(** [for x in l: acc = body(acc, x)], with the loop's variables threaded. *)
Fixpoint for_each {A S} (l : list A) (body : S -> A -> Out S) (s : S) : Out S :=
  match l with
  | [] => ret s
  | x :: r => s' <- body s x ;; for_each r body s'
  end.

(** [for x in l: body(x)], where [body] mutates [x] in place: the list of
    the mutated elements. *)
Fixpoint for_all {A} (l : list A) (body : A -> Out A) : Out (list A) :=
  match l with
  | [] => ret []
  | x :: r => x' <- body x ;; r' <- for_all r body ;; ret (x' :: r')
  end.

(** ** [find_time_errors] *)

(** [enumerate(l)], counting from [k]. *)
Fixpoint enumerate_from {A} (k : nat) (l : list A) : list (nat * A) :=
  match l with
  | [] => []
  | x :: r => (k, x) :: enumerate_from (S k) r
  end.

(** gpxpy's [GPXTrackSegment.walk()]: the pairs [(point, point_no)]. *)
Definition walk (trkseg : GPXTrackSegment) : list (GPXTrackPoint * nat) :=
  map (fun ix => (snd ix, fst ix)) (enumerate_from 0 (points trkseg)).

(** [del l[i]] for an index [i >= 0]. *)
Fixpoint del_item {A} (l : list A) (i : nat) : exn + list A :=
  match l, i with
  | [], _ => inl IndexError
  | _ :: r, O => inr r
  | x :: r, S j =>
      match del_item r j with
      | inl e => inl e
      | inr r' => inr (x :: r')
      end
  end.

Definition lift {A} (r : exn + A) : Out A := ([], r).

(** The body of [for p, i in trkseg.walk()], on the loop's variables
    [(time_errors, last_time)]. *)
Definition scan_point (st : list nat * pyobj) (pi : GPXTrackPoint * nat)
  : Out (list nat * pyobj) :=
  let '(time_errors, last_time) := st in
  let '(p, i) := pi in
  time_errors' <-
    (if py_eq (time_obj (time p)) last_time
     then say (OutTimeError (time p) i) ;; ret (time_errors ++ [i])
     else ret time_errors) ;;
  ret (time_errors', time_obj (time p)).

(** The sentinel [last_time = -1]. *)
Definition sentinel : pyobj := PyInt (-1).

(** The traversal of one segment: the final [time_errors]. *)
Definition scan_segment (trkseg : GPXTrackSegment) : Out (list nat) :=
  st <- for_each (walk trkseg) scan_point ([], sentinel) ;;
  ret (fst st).

Definition is_nonempty {A} (l : list A) : bool :=
  match l with
  | [] => false
  | _ => true
  end.

(** [time_errors.reverse(); for i in time_errors: del trkseg.points[i]]. *)
Definition delete_reversed {A} (time_errors : list nat) (pts : list A) : Out (list A) :=
  for_each (rev time_errors) (fun l i => lift (del_item l i)) pts.

(** The body of [for trkseg in trk.segments]. *)
Definition find_time_errors_segment (remove : bool) (trkseg : GPXTrackSegment)
  : Out GPXTrackSegment :=
  time_errors <- scan_segment trkseg ;;
  if is_nonempty time_errors && remove
  then
    say (OutRemoving time_errors) ;;
    pts <- delete_reversed time_errors (points trkseg) ;;
    ret (mkSegment pts)
  else ret trkseg.

Definition find_time_errors_track (remove : bool) (trk : GPXTrack) : Out GPXTrack :=
  segs <- for_all (segments trk) (find_time_errors_segment remove) ;;
  ret (mkTrack segs).

(** [find_time_errors(gpx, remove)]: the printed lines and the track
    structure as the call leaves it. *)
Definition find_time_errors (gpx : GPX) (remove : bool) : Out GPX :=
  trks <- for_all (tracks gpx) (find_time_errors_track remove) ;;
  ret (mkGPX trks).

(** ** What the interpreter and the operating system supply *)

(** Three library functions whose result depends on the Python version or
    on the operating system: the built-in [sum] over floats (a plain left
    fold before CPython 3.12, a compensated sum since), [os.path.join] and
    [os.path.normcase] (which [fnmatch.filter] applies to each name). *)
Record platform : Type := mkPlatform {
  py_sum : list float -> float;
  path_join : string -> string -> string;
  normcase : string -> string
}.

(** ** [overlayGPX] *)

Inductive map_child : Type :=
| PolyLine (locations : list (float * float)) (color : string)
           (weight : float) (opacity : Z)
| LayerControl.

(** A [folium.Map] and the children added to it, in the order added. *)
Record folium_map : Type := mkMap {
  location : float * float;
  zoom_start : Z;
  children : list map_child
}.

(** [x / n] for a float [x] and an [int] [n] that is a length. *)
Definition truediv (x : float) (n : nat) : exn + float :=
  match n with
  | O => inl ZeroDivisionError
  | S _ => inr (PrimFloat.div x (PrimFloat.of_uint63 (Uint63.of_Z (Z.of_nat n))))
  end.

(** The three nested loops that fill [points]. *)
Definition all_points (gpx : GPX) : list (float * float) :=
  flat_map (fun track =>
    flat_map (fun segment =>
      map (fun point => (latitude point, longitude point)) (points segment))
      (segments track))
    (tracks gpx).

Section Platform.

Variable P : platform.

Definition overlayGPX (gpx : GPX) (zoom : Z) : exn + folium_map :=
  let points := all_points gpx in
  match truediv (py_sum P (map fst points)) (length points) with
  | inl e => inl e
  | inr latitude =>
      match truediv (py_sum P (map snd points)) (length points) with
      | inl e => inl e
      | inr longitude =>
          inr (mkMap (latitude, longitude) zoom
                     [PolyLine points "red" 2.5%float 1; LayerControl])
      end
  end.

End Platform.

(** ** The order of the input files *)

(** [s[:n]] and [s[n:]] for [n >= 0]. *)
Fixpoint slice_to (n : nat) (s : string) : string :=
  match n, s with
  | S m, String c r => String c (slice_to m r)
  | _, _ => EmptyString
  end.

Fixpoint slice_from (n : nat) (s : string) : string :=
  match n, s with
  | S m, String _ r => slice_from m r
  | _, _ => s
  end.

(** [<] on pairs of strings, as Python compares tuples: the first
    components decide unless they are equal. *)
Definition tuple_ltb (a b : string * string) : bool :=
  match String.compare (fst a) (fst b) with
  | Lt => true
  | Eq => String.ltb (snd a) (snd b)
  | Gt => false
  end.

(** [list.sort()]: the stable sort by [<].  An element goes in front of the
    first element that is not smaller than it. *)
Fixpoint insert_sorted (x : string * string) (l : list (string * string))
  : list (string * string) :=
  match l with
  | [] => [x]
  | y :: r => if tuple_ltb y x then y :: insert_sorted x r else x :: y :: r
  end.

Definition list_sort (l : list (string * string)) : list (string * string) :=
  fold_right insert_sorted [] l.

(** [(fn[4:], fn[:4])] and [seg+vid]. *)
Definition vidseg (fn : string) : string * string :=
  (slice_from 4 fn, slice_to 4 fn).

Definition rejoin (vs : string * string) : string :=
  let (vid, seg) := vs in (seg ++ vid)%string.

(** Lines 102 to 105 of [main]: the files in the order they are processed. *)
Definition order_files (mp4 : list string) : list string :=
  map rejoin (list_sort (map vidseg mp4)).

(** [name.endswith(suffix)]. *)
Fixpoint ends_with (suffix name : string) : bool :=
  if String.eqb name suffix then true
  else match name with
       | EmptyString => false
       | String _ r => ends_with suffix r
       end.

(** [fnmatch.filter(names, '*.mp4')]: the pattern translates to the regular
    expression [(?s:.*\.mp4)\Z], matched against the normalised name. *)
Definition fnmatch_filter_mp4 (P : platform) (names : list string) : list string :=
  filter (fun name => ends_with ".mp4" (normcase P name)) names.

(** [fn.split('.')[0]]. *)
Fixpoint before_dot (s : string) : string :=
  match s with
  | EmptyString => EmptyString
  | String c r => if Ascii.eqb c "." then EmptyString else String c (before_dot r)
  end.

(** ** Programs that call out of the process *)

(** The object [srtm.get_data()] returns. *)
Record GeoElevationData : Type := mkElevationData { srtm_handle : nat }.

(** The calls that leave the program.  A method that mutates the track in
    place ([smooth], [add_elevations]) is answered with the track as the
    call leaves it. *)
Inductive call : Type :=
| CPrint (o : output)
| CSubprocessShell (cmd : string)
| CListdir (dir : string)
| CSrtmGetData
| CExiftool (args : list string)
| CGpxParse (gpx_text : string)
| CSmooth (vertical horizontal : bool) (gpx : GPX)
| CAddElevations (elevation_data : GeoElevationData)
                 (only_missing smooth : bool) (gpx : GPX)
| CGetUphillDownhill (gpx : GPX)
| CGetMovingData (gpx : GPX)
| CSave (outfile : string) (map_obj : folium_map).

(** - [CSubprocessShell cmd]: [subprocess.run(cmd, shell=True,
      capture_output=True, text=True).stdout];
    - [CExiftool args]: [subprocess.run(args, check=True,
      capture_output=True, text=True).stdout]. *)
Definition answer (c : call) : Type :=
  match c with
  | CPrint _ => unit
  | CSubprocessShell _ => string
  | CListdir _ => list string
  | CSrtmGetData => GeoElevationData
  | CExiftool _ => string
  | CGpxParse _ => GPX
  | CSmooth _ _ _ => GPX
  | CAddElevations _ _ _ _ => GPX
  | CGetUphillDownhill _ => UphillDownhill
  | CGetMovingData _ => MovingData
  | CSave _ _ => unit
  end.

Inductive prog (A : Type) : Type :=
| Ret (a : A)
| Raise (e : exn)
| Call (c : call) (k : answer c -> prog A).

Arguments Raise {A} e.

Fixpoint pbind {A B} (p : prog A) (f : A -> prog B) : prog B :=
  match p with
  | Ret a => f a
  | Raise e => Raise e
  | Call c k => Call c (fun x => pbind (k x) f)
  end.

Definition perform (c : call) : prog (answer c) := Call c (fun x => Ret x).

Definition print (o : output) : prog unit := perform (CPrint o).

Declare Scope prog_scope.
Delimit Scope prog_scope with prog.
Notation "x <- m ;; k" := (pbind m (fun x => k))
  (at level 61, m at next level, right associativity) : prog_scope.
Notation "m ;; k" := (pbind m (fun _ => k))
  (at level 61, right associativity) : prog_scope.

(** A function of the [Out] monad called from a program: its lines are
    printed, then it returns or raises. *)
Fixpoint print_all {A} (lines : list output) (r : exn + A) : prog A :=
  match lines with
  | [] => match r with inl e => Raise e | inr a => Ret a end
  | o :: rest => Call (CPrint o) (fun _ => print_all rest r)
  end.

Definition emit {A} (m : Out A) : prog A := print_all (fst m) (snd m).

(** [for x in l: body(x)] in a program. *)
Fixpoint for_files {A} (l : list A) (body : A -> prog unit) : prog unit :=
  match l with
  | [] => Ret tt
  | x :: r => pbind (body x) (fun _ => for_files r body)
  end.

(** *** Running a program *)

(** The world outside the program: each call is answered or raises, and
    the state of the world moves on. *)
Definition handler (W : Type) : Type :=
  forall c : call, W -> (exn + answer c) * W.

(** A call together with how the world answered it. *)
Record event : Type := Ev {
  ev_call : call;
  ev_result : exn + answer ev_call
}.

(** The calls made with their answers, in order, the outcome and the final
    state of the world. *)
Fixpoint run {W A} (h : handler W) (p : prog A) (w : W)
  : list event * (exn + A) * W :=
  match p with
  | Ret a => ([], inr a, w)
  | Raise e => ([], inl e, w)
  | Call c k =>
      match h c w with
      | (inl e, w') => ([Ev c (inl e)], inl e, w')
      | (inr x, w') =>
          let '(t, r, w'') := run h (k x) w' in (Ev c (inr x) :: t, r, w'')
      end
  end.

Definition is_print (ev : event) : bool :=
  match ev_call ev with
  | CPrint _ => true
  | _ => false
  end.

(** The events of a trace that are not [print]. *)
Definition library_events (t : list event) : list event :=
  filter (fun ev => negb (is_print ev)) t.

(** A call that was answered. *)
Definition answered (c : call) (x : answer c) : event := Ev c (inr x).

(** ** [shell] and [main] *)

(** Line 48 runs the literal ['echo %CD%']; [cmdline] is not read. *)
Definition shell (cmdline : string) : prog string :=
  perform (CSubprocessShell "echo %CD%").

Section Main.

Variable P : platform.

Open Scope prog_scope.

Definition exiftool_args (path : string) : list string :=
  ["exiftool.exe"; "-p"; "gpxfixed.fmt"; "-ee"; "-progress"; path]%string.

(** The body of [for fn in mp4], up to its [continue]. *)
Definition process_file (indir outdir : string)
  (elevation_data : GeoElevationData) (fn : string) : prog unit :=
  let basename := before_dot fn in
  let path := path_join P indir fn in
  print (OutProcessing path) ;;
  print (OutText "Extracting GPS data with exiftool...") ;;
  gpx_text <- perform (CExiftool (exiftool_args path)) ;;
  print (OutText "Parsing GPX output...") ;;
  gpx <- perform (CGpxParse gpx_text) ;;
  gpx <- emit (find_time_errors gpx true) ;;
  print (OutText "Smoothing horizontal...") ;;
  gpx <- perform (CSmooth false true gpx) ;;
  print (OutText "Fixing elevations...") ;;
  gpx <- perform (CAddElevations elevation_data false true gpx) ;;
  print (OutText "Smoothing vertical...") ;;
  gpx <- perform (CSmooth true false gpx) ;;
  ud <- perform (CGetUphillDownhill gpx) ;;
  print (OutUphillDownhill ud) ;;
  md <- perform (CGetMovingData gpx) ;;
  print (OutMovingData md) ;;
  map_obj <- emit (lift (overlayGPX P gpx 14)) ;;
  let map_fn := path_join P outdir (basename ++ "_map.html")%string in
  print (OutWriting map_fn) ;;
  perform (CSave map_fn map_obj).

Definition main (argv : list string) : prog unit :=
  if length argv <? 3 then Ret tt
  else
    let indir := nth 1 argv EmptyString in
    let outdir := nth 2 argv EmptyString in
    cwd <- shell "echo %CD%" ;;
    print (OutText cwd) ;;
    names <- perform (CListdir indir) ;;
    let mp4 := fnmatch_filter_mp4 P names in
    let mp4 := order_files mp4 in
    print (OutOrder mp4) ;;
    elevation_data <- perform CSrtmGetData ;;
    for_files mp4 (process_file indir outdir elevation_data).

End Main.

(** ** Notions the properties are stated with *)

(** [GPXTrackSegment]s of a track structure, in traversal order. *)
Definition gpx_segments (gpx : GPX) : list GPXTrackSegment :=
  flat_map segments (tracks gpx).

(** Two points carry the same timestamp, as [==] sees it. *)
Definition same_time (p q : GPXTrackPoint) : bool :=
  py_eq (time_obj (time p)) (time_obj (time q)).

(** No point has the timestamp of the point just before it. *)
Fixpoint no_adjacent_equal (pts : list GPXTrackPoint) : bool :=
  match pts with
  | p :: ((q :: _) as r) => negb (same_time q p) && no_adjacent_equal r
  | _ => true
  end.

Definition clean_gpx (gpx : GPX) : bool :=
  forallb (fun seg => no_adjacent_equal (points seg)) (gpx_segments gpx).

(** The single pass of the specification: keep the elements whose index is
    not flagged, [[p for j, p in enumerate(l) if j not in flagged]]. *)
Definition mem (j : nat) (flagged : list nat) : bool :=
  existsb (Nat.eqb j) flagged.

Definition single_pass_filter {A} (flagged : list nat) (l : list A) : list A :=
  map snd (filter (fun jp => negb (mem (fst jp) flagged)) (enumerate_from 0 l)).

(** The single pass, on a list whose first index is [k]. *)
Definition filter_from {A} (k : nat) (flagged : list nat) (l : list A) : list A :=
  map snd (filter (fun jp => negb (mem (fst jp) flagged)) (enumerate_from k l)).

(** The indices the traversal flags, when it reaches index [k] with
    [last_time = last]. *)
Fixpoint flagged_from (k : nat) (last : pyobj) (pts : list GPXTrackPoint) : list nat :=
  match pts with
  | [] => []
  | p :: r =>
      if py_eq (time_obj (time p)) last
      then k :: flagged_from (S k) (time_obj (time p)) r
      else flagged_from (S k) (time_obj (time p)) r
  end.

(** The points the traversal does not flag. *)
Fixpoint survivors (last : pyobj) (pts : list GPXTrackPoint) : list GPXTrackPoint :=
  match pts with
  | [] => []
  | p :: r =>
      if py_eq (time_obj (time p)) last
      then survivors (time_obj (time p)) r
      else p :: survivors (time_obj (time p)) r
  end.

(** The lines the traversal prints. *)
Fixpoint reported_from (k : nat) (last : pyobj) (pts : list GPXTrackPoint) : list output :=
  match pts with
  | [] => []
  | p :: r =>
      if py_eq (time_obj (time p)) last
      then OutTimeError (time p) k :: reported_from (S k) (time_obj (time p)) r
      else reported_from (S k) (time_obj (time p)) r
  end.

(** [last_time] when the traversal ends. *)
Definition last_time_after (last : pyobj) (pts : list GPXTrackPoint) : pyobj :=
  fold_left (fun _ p => time_obj (time p)) pts last.

(** What [find_time_errors] prints for a segment and how it leaves it. *)
Definition segment_lines (remove : bool) (trkseg : GPXTrackSegment) : list output :=
  let time_errors := flagged_from 0 sentinel (points trkseg) in
  reported_from 0 sentinel (points trkseg)
  ++ (if is_nonempty time_errors && remove then [OutRemoving time_errors] else []).

Definition cleaned_segment (remove : bool) (trkseg : GPXTrackSegment) : GPXTrackSegment :=
  if remove then mkSegment (survivors sentinel (points trkseg)) else trkseg.

Definition cleaned_track (remove : bool) (trk : GPXTrack) : GPXTrack :=
  mkTrack (map (cleaned_segment remove) (segments trk)).

Definition cleaned (remove : bool) (gpx : GPX) : GPX :=
  mkGPX (map (cleaned_track remove) (tracks gpx)).

Definition gpx_lines (remove : bool) (gpx : GPX) : list output :=
  flat_map (fun trk => flat_map (segment_lines remove) (segments trk) ++ [])
           (tracks gpx) ++ [].


(** The stages of the pipeline that call a library or a tool. *)
Inductive stage : Type :=
| StExtract
| StParse
| StSmooth (vertical horizontal : bool)
| StElevationFill
| StUphillDownhill
| StMovingData
| StSaveMap
| StOther.

Definition stage_of_call (c : call) : stage :=
  match c with
  | CExiftool _ => StExtract
  | CGpxParse _ => StParse
  | CSmooth vertical horizontal _ => StSmooth vertical horizontal
  | CAddElevations _ _ _ _ => StElevationFill
  | CGetUphillDownhill _ => StUphillDownhill
  | CGetMovingData _ => StMovingData
  | CSave _ _ => StSaveMap
  | _ => StOther
  end.

(** The calls of a trace that are not [print], and their stages. *)
Definition library_calls (t : list event) : list call :=
  map ev_call (library_events t).

Definition stages (t : list event) : list stage :=
  map stage_of_call (library_calls t).

(** The order of the stages for one file. *)
Definition pipeline_stages : list stage :=
  [StExtract; StParse; StSmooth false true; StElevationFill;
   StSmooth true false; StUphillDownhill; StMovingData; StSaveMap].

(** No horizontal smoothing once the elevations have been filled. *)
Fixpoint no_horizontal_after_fill (filled : bool) (l : list stage) : bool :=
  match l with
  | [] => true
  | StSmooth _ true :: r => negb filled && no_horizontal_after_fill filled r
  | StElevationFill :: r => no_horizontal_after_fill true r
  | _ :: r => no_horizontal_after_fill filled r
  end.

(** The library events of one file that was processed to the end, with the
    track handed from stage to stage: what the parser returned goes through
    [find_time_errors] with [remove=True] and then to the horizontal
    smoothing, whose result goes to the elevation fill, and so on. *)
Definition file_pipeline (P : platform) (indir outdir : string)
  (elevation_data : GeoElevationData) (fn : string) (evs : list event) : Prop :=
  exists gpx_text gpx0 lines gpx0' gpx1 gpx2 gpx3 ud md map_obj,
    find_time_errors gpx0 true = (lines, inr gpx0') /\
    overlayGPX P gpx3 14 = inr map_obj /\
    evs =
    [answered (CExiftool (exiftool_args (path_join P indir fn))) gpx_text;
     answered (CGpxParse gpx_text) gpx0;
     answered (CSmooth false true gpx0') gpx1;
     answered (CAddElevations elevation_data false true gpx1) gpx2;
     answered (CSmooth true false gpx2) gpx3;
     answered (CGetUphillDownhill gpx3) ud;
     answered (CGetMovingData gpx3) md;
     answered (CSave (path_join P outdir (before_dot fn ++ "_map.html")%string)
                     map_obj) tt].

(** Timestamps for examples: a point with a time and no position. *)
Definition point_at (t : option datetime) : GPXTrackPoint :=
  mkPoint t 0%float 0%float None.

(** A platform for examples: the plain left fold, a backslash join and no
    case folding. *)
Definition example_platform : platform :=
  mkPlatform (fun l => fold_left PrimFloat.add l 0%float)
             (fun a b => (a ++ "\" ++ b)%string)
             (fun name => name).

(** [a <= b] on the sort keys: [b < a] does not hold. *)
Definition tuple_le (a b : string * string) : Prop := tuple_ltb b a = false.

(** The three-way comparison behind [tuple_ltb]. *)
Definition tuple_compare (a b : string * string) : comparison :=
  match String.compare (fst a) (fst b) with
  | Eq => String.compare (snd a) (snd b)
  | c => c
  end.

(** The library events of a file processed to the end, from the answers of
    the world. *)
Definition full_trace (P : platform) (indir outdir : string)
  (elevation_data : GeoElevationData) (fn : string)
  (gpx_text : string) (gpx0 gpx1 gpx2 gpx3 : GPX)
  (ud : UphillDownhill) (md : MovingData) (map_obj : folium_map) : list event :=
  [answered (CExiftool (exiftool_args (path_join P indir fn))) gpx_text;
   answered (CGpxParse gpx_text) gpx0;
   answered (CSmooth false true (cleaned true gpx0)) gpx1;
   answered (CAddElevations elevation_data false true gpx1) gpx2;
   answered (CSmooth true false gpx2) gpx3;
   answered (CGetUphillDownhill gpx3) ud;
   answered (CGetMovingData gpx3) md;
   answered (CSave (path_join P outdir (before_dot fn ++ "_map.html")%string)
                   map_obj) tt].

(** The files handed to exiftool, in the order of the calls. *)
Definition extracted (t : list event) : list (list string) :=
  flat_map (fun c => match c with CExiftool args => [args] | _ => [] end)
           (library_calls t).

(** A world for examples: a directory with three recordings, a tool that
    answers with the path it was given, a parser that returns one segment
    with a repeated timestamp, and filters that leave the track alone. *)
Definition example_gpx : GPX :=
  mkGPX [mkTrack [mkSegment [point_at (Some 10%Z); point_at (Some 10%Z);
                             point_at (Some 11%Z)]]].

Definition example_handler : handler unit :=
  fun c w =>
    (match c return exn + answer c with
     | CPrint _ => inr tt
     | CSubprocessShell _ => inr "C:\work"%string
     | CListdir _ =>
         inr ["GX010002.mp4"; "notes.txt"; "GX020001.mp4"; "GX010001.mp4"]%string
     | CSrtmGetData => inr (mkElevationData 0)
     | CExiftool args => inr (last args EmptyString)
     | CGpxParse _ => inr example_gpx
     | CSmooth _ _ gpx => inr gpx
     | CAddElevations _ _ _ gpx => inr gpx
     | CGetUphillDownhill _ => inr (mkUD 0 0)
     | CGetMovingData _ => inr (mkMD 0 0 0 0 0)
     | CSave _ _ => inr tt
     end, w).

(** Segments for examples, by their timestamps. *)
Definition segment_at (ts : list (option datetime)) : GPXTrackSegment :=
  mkSegment (map point_at ts).

Definition example_argv : list string :=
  ["postprocess.py"; "in"; "out"]%string.

(** ** Further notions *)

(** A line of the form [*** Time error @... point #...]. *)
Definition is_time_error (o : output) : bool :=
  match o with
  | OutTimeError _ _ => true
  | _ => false
  end.

(** [l1] is [l2] with some elements left out, the order kept. *)
Inductive Subseq {A : Type} : list A -> list A -> Prop :=
| Subseq_nil : Subseq [] []
| Subseq_keep (x : A) (l1 l2 : list A) : Subseq l1 l2 -> Subseq (x :: l1) (x :: l2)
| Subseq_drop (x : A) (l1 l2 : list A) : Subseq l1 l2 -> Subseq l1 (x :: l2).

(** Two track structures with the same tracks and segments, the segments
    related one by one. *)
Definition segmentwise (R : GPXTrackSegment -> GPXTrackSegment -> Prop)
  (gpx gpx' : GPX) : Prop :=
  Forall2 (fun trk trk' => Forall2 R (segments trk) (segments trk'))
          (tracks gpx) (tracks gpx').

(** The call of an event was answered, not raised from. *)
Definition is_answered (ev : event) : bool :=
  match ev_result ev with
  | inr _ => true
  | inl _ => false
  end.

(** The map files written: the [outfile] of each [save] that returned. *)
Definition saved (t : list event) : list string :=
  flat_map (fun ev =>
              match ev_call ev with
              | CSave outfile _ => if is_answered ev then [outfile] else []
              | _ => []
              end) t.

(** The name of the map written for an input file. *)
Definition map_fn (P : platform) (outdir fn : string) : string :=
  path_join P outdir (before_dot fn ++ "_map.html")%string.

(** ** [format_time] *)

(** A [datetime.datetime] by its fields, each within the range the class
    enforces, with what [utcoffset()] returns: [None] for a naive value,
    else the offset, a [timedelta], in microseconds. *)
Record datetime_fields : Type := mkDatetime {
  year : Z;
  month : Z;
  day : Z;
  hour : Z;
  minute : Z;
  second : Z;
  microsecond : Z;
  utcoffset : option Z
}.

(** The last decimal digit of [n], as a character. *)
Definition digit (n : Z) : ascii := ascii_of_nat (48 + Z.to_nat (n mod 10)).

(** [n] in [width] decimal digits with leading zeros ([%02d], [%06d], ...),
    for [0 <= n < 10 ^ width]. *)
Fixpoint zero_padded (width : nat) (n : Z) : string :=
  match width with
  | O => EmptyString
  | S w => (zero_padded w (n / 10) ++ String (digit n) EmptyString)%string
  end.

(** [time.strftime('%Y-%m-%dT%H:%M:%S')] (years below 1000 padded to four
    digits, as the C library of Windows pads them). *)
Definition strftime_seconds (t : datetime_fields) : string :=
  (zero_padded 4 (year t) ++ "-" ++ zero_padded 2 (month t) ++ "-"
   ++ zero_padded 2 (day t) ++ "T" ++ zero_padded 2 (hour t) ++ ":"
   ++ zero_padded 2 (minute t) ++ ":" ++ zero_padded 2 (second t))%string.

(** [time.strftime('.%f')]. *)
Definition strftime_fraction (t : datetime_fields) : string :=
  ("." ++ zero_padded 6 (microsecond t))%string.

(** [time.strftime('%z')]: empty for a naive value; else the sign, hours
    and minutes, then the seconds if the offset has seconds or
    microseconds, then the microseconds if it has any. *)
Definition strftime_z (t : datetime_fields) : string :=
  match utcoffset t with
  | None => EmptyString
  | Some offset =>
      let sign := if (offset <? 0)%Z then "-"%string else "+"%string in
      let o := Z.abs offset in
      let h := (o / 3600000000)%Z in
      let m := (o mod 3600000000 / 60000000)%Z in
      let s := (o mod 60000000 / 1000000)%Z in
      let u := (o mod 1000000)%Z in
      if negb (u =? 0)%Z then
        (sign ++ zero_padded 2 h ++ zero_padded 2 m ++ zero_padded 2 s
         ++ "." ++ zero_padded 6 u)%string
      else if negb (s =? 0)%Z then
        (sign ++ zero_padded 2 h ++ zero_padded 2 m ++ zero_padded 2 s)%string
      else (sign ++ zero_padded 2 h ++ zero_padded 2 m)%string
  end.

(** [not offset or offset == 0]: [None] and the zero [timedelta] are
    false values; a [timedelta] never equals the [int] 0. *)
Definition no_offset (offset : option Z) : bool :=
  match offset with
  | None => true
  | Some o => (o =? 0)%Z || false
  end.

Definition format_time (t : datetime_fields) : string :=
  let offset := utcoffset t in
  let tz := if no_offset offset then "Z"%string else strftime_z t in
  let ms := if negb (microsecond t =? 0)%Z
            then slice_to 4 (strftime_fraction t)  (* Miliseconds only! *)
            else EmptyString in
  (strftime_seconds t ++ ms ++ tz)%string.

(** ** [showtree] *)




(** A world in which the parser fails on the second file. *)
Definition failing_handler : handler nat :=
  fun c parsed =>
    match c as c0 return (exn + answer c0) * nat with
    | CGpxParse _ =>
        (if parsed =? 1 then inl (External "GPXXMLSyntaxException")
         else inr example_gpx, S parsed)
    | c0 => (fst (example_handler c0 tt), parsed)
    end.
(** * Properties *)

(** ** The [Out] monad and its loops *)

Lemma bind_ret_l {A B} (a : A) (f : A -> Out B) : bind (ret a) f = f a.
Proof. unfold bind, ret. destruct (f a). reflexivity. Qed.

Lemma bind_returns {A B} (m : Out A) (f : A -> Out B) o a o' b :
  m = (o, inr a) -> f a = (o', inr b) -> bind m f = (o ++ o', inr b).
Proof. intros -> H. unfold bind. rewrite H. reflexivity. Qed.

(** A loop whose body returns on every element returns. *)
Lemma for_all_returns {A} (body : A -> Out A) (g : A -> A) (out : A -> list output) l :
  (forall x, In x l -> body x = (out x, inr (g x))) ->
  for_all l body = (flat_map out l, inr (map g l)).
Proof.
  induction l as [|x r IH]; intros H; simpl.
  - reflexivity.
  - rewrite (bind_returns (o' := flat_map out r) (b := g x :: map g r)
               _ (H x (or_introl eq_refl))).
    + reflexivity.
    + rewrite (bind_returns (o' := []) (b := g x :: map g r) _
                 (IH (fun y Hy => H y (or_intror Hy)))).
      * rewrite app_nil_r. reflexivity.
      * reflexivity.
Qed.

(** ** The traversal *)

Lemma for_each_scan_point pts : forall k time_errors last,
  for_each (map (fun ix => (snd ix, fst ix)) (enumerate_from k pts))
           scan_point (time_errors, last)
  = (reported_from k last pts,
     inr (time_errors ++ flagged_from k last pts, last_time_after last pts)).
Proof.
  induction pts as [|p r IH]; intros k te last; simpl.
  - rewrite app_nil_r. reflexivity.
  - unfold scan_point at 1. simpl.
    destruct (py_eq (time_obj (time p)) last); simpl;
      unfold bind at 1; simpl; rewrite IH; simpl.
    + rewrite <- app_assoc. reflexivity.
    + reflexivity.
Qed.

Lemma scan_segment_eq trkseg :
  scan_segment trkseg
  = (reported_from 0 sentinel (points trkseg),
     inr (flagged_from 0 sentinel (points trkseg))).
Proof.
  unfold scan_segment, walk. rewrite for_each_scan_point. simpl.
  rewrite app_nil_r. reflexivity.
Qed.

(** ** Deleting from the back *)

Section Deleting.

Context {A : Type}.

Lemma filter_from_cons k flagged (x : A) (l : list A) :
  filter_from k flagged (x :: l)
  = if mem k flagged then filter_from (S k) flagged l
    else x :: filter_from (S k) flagged l.
Proof. unfold filter_from. simpl. destruct (mem k flagged); reflexivity. Qed.

Lemma filter_from_nil k (l : list A) : filter_from k [] l = l.
Proof.
  revert k. induction l as [|x r IH]; intros k.
  - reflexivity.
  - rewrite filter_from_cons. simpl. rewrite IH. reflexivity.
Qed.

(** An index in front of the list plays no part. *)
Lemma filter_from_below (l : list A) : forall k i flagged,
  i < k -> filter_from k (i :: flagged) l = filter_from k flagged l.
Proof.
  induction l as [|x r IH]; intros k i flagged Hlt.
  - reflexivity.
  - rewrite !filter_from_cons. simpl.
    replace (k =? i) with false by (symmetry; apply Nat.eqb_neq; lia).
    simpl. rewrite IH by lia. reflexivity.
Qed.

Lemma mem_false j flagged : (forall i, In i flagged -> j < i) -> mem j flagged = false.
Proof.
  intros H. unfold mem. destruct (existsb (Nat.eqb j) flagged) eqn:E; [|reflexivity].
  apply existsb_exists in E. destruct E as [i [Hi E]].
  apply Nat.eqb_eq in E. subst i. specialize (H j Hi). lia.
Qed.

(** Deleting index [i] after the larger indices have been filtered out is
    filtering [i] out as well. *)
Lemma del_item_filter_from (l : list A) : forall k i flagged,
  k <= i < k + length l ->
  (forall j, In j flagged -> i < j) ->
  del_item (filter_from k flagged l) (i - k) = inr (filter_from k (i :: flagged) l).
Proof.
  induction l as [|x r IH]; intros k i flagged Hi Hgt; simpl in Hi.
  - lia.
  - rewrite !filter_from_cons.
    destruct (Nat.eq_dec i k) as [->|Hne].
    + rewrite (mem_false _ Hgt). simpl. rewrite Nat.eqb_refl, Nat.sub_diag. simpl.
      rewrite filter_from_below by lia. reflexivity.
    + assert (Hk : mem k flagged = false).
      { apply mem_false. intros j Hj. specialize (Hgt j Hj). lia. }
      rewrite Hk. simpl.
      replace (k =? i) with false by (symmetry; apply Nat.eqb_neq; lia).
      rewrite Hk. replace (i - k) with (S (i - S k)) by lia. simpl.
      rewrite IH by (auto; lia). reflexivity.
Qed.

Lemma for_each_app {B S} (l1 l2 : list B) (body : S -> B -> Out S) s :
  for_each (l1 ++ l2) body s = bind (for_each l1 body s) (for_each l2 body).
Proof.
  revert s. induction l1 as [|x r IH]; intros s; simpl.
  - unfold bind, ret. destruct (for_each l2 body s). reflexivity.
  - unfold bind. destruct (body s x) as [o [e|s']].
    + reflexivity.
    + rewrite IH. unfold bind.
      destruct (for_each r body s') as [o1 [e|s'']].
      * reflexivity.
      * destruct (for_each l2 body s'') as [o2 res]. rewrite app_assoc. reflexivity.
Qed.

(** Deleting strictly increasing, in-range indices from the largest down
    never raises, prints nothing and is the single pass. *)
Lemma delete_reversed_filter (flagged : list nat) (l : list A) :
  StronglySorted lt flagged ->
  Forall (fun i => i < length l) flagged ->
  delete_reversed flagged l = ([], inr (single_pass_filter flagged l)).
Proof.
  unfold delete_reversed.
  change (single_pass_filter flagged l) with (filter_from 0 flagged l).
  induction flagged as [|i rest IH]; intros Hs Hb.
  - simpl. rewrite filter_from_nil. reflexivity.
  - inversion Hs as [|? ? Hs' Hlt]; subst. inversion Hb as [|? ? Hi Hb']; subst.
    simpl. rewrite for_each_app, (IH Hs' Hb'). simpl.
    assert (D := @del_item_filter_from l 0 i rest).
    rewrite Nat.sub_0_r in D. unfold lift, bind. simpl.
    rewrite D.
    + reflexivity.
    + lia.
    + intros j Hj. rewrite Forall_forall in Hlt. auto.
Qed.

End Deleting.

(** ** What the traversal flags *)

Lemma flagged_from_bounds pts : forall k last,
  Forall (fun i => k <= i < k + length pts) (flagged_from k last pts).
Proof.
  induction pts as [|p r IH]; intros k last; simpl.
  - constructor.
  - assert (H : Forall (fun i => k <= i < k + S (length r))
                       (flagged_from (S k) (time_obj (time p)) r)).
    { eapply Forall_impl; [|apply IH]. simpl. intros; lia. }
    destruct (py_eq _ last); [constructor; [lia|]|]; exact H.
Qed.

Lemma flagged_from_sorted pts : forall k last,
  StronglySorted lt (flagged_from k last pts).
Proof.
  induction pts as [|p r IH]; intros k last; simpl.
  - constructor.
  - destruct (py_eq _ last); [|apply IH].
    constructor; [apply IH|].
    eapply Forall_impl; [|apply flagged_from_bounds]. simpl. intros; lia.
Qed.

(** The single pass over the flagged indices leaves the survivors. *)
Lemma filter_from_flagged pts : forall k last,
  filter_from k (flagged_from k last pts) pts = survivors last pts.
Proof.
  induction pts as [|p r IH]; intros k last; simpl.
  - reflexivity.
  - rewrite filter_from_cons.
    assert (Hk : mem k (flagged_from (S k) (time_obj (time p)) r) = false).
    { apply mem_false. intros i Hi.
      pose proof (flagged_from_bounds r (S k) (time_obj (time p))) as B.
      rewrite Forall_forall in B. specialize (B i Hi). lia. }
    destruct (py_eq _ last).
    + simpl. rewrite Nat.eqb_refl. simpl.
      rewrite filter_from_below by lia. apply IH.
    + rewrite Hk, IH. reflexivity.
Qed.

Lemma flagged_nil_survivors pts : forall k last,
  flagged_from k last pts = [] -> survivors last pts = pts.
Proof.
  induction pts as [|p r IH]; intros k last; simpl.
  - reflexivity.
  - destruct (py_eq _ last); [discriminate|].
    intros H. rewrite (IH _ _ H). reflexivity.
Qed.

Lemma flagged_nil_reported pts : forall k last,
  flagged_from k last pts = [] -> reported_from k last pts = [].
Proof.
  induction pts as [|p r IH]; intros k last; simpl.
  - reflexivity.
  - destruct (py_eq _ last); [discriminate|]. apply IH.
Qed.

(** ** [find_time_errors], segment by segment *)

Lemma find_time_errors_segment_eq remove trkseg :
  find_time_errors_segment remove trkseg
  = (segment_lines remove trkseg, inr (cleaned_segment remove trkseg)).
Proof.
  unfold find_time_errors_segment, segment_lines, cleaned_segment.
  rewrite scan_segment_eq. unfold bind at 1.
  pose proof (flagged_from_sorted (points trkseg) 0 sentinel) as Hs.
  pose proof (flagged_from_bounds (points trkseg) 0 sentinel) as Hb.
  pose proof (filter_from_flagged (points trkseg) 0 sentinel) as Hf.
  pose proof (@flagged_nil_survivors (points trkseg) 0 sentinel) as Hn.
  destruct (flagged_from 0 sentinel (points trkseg)) as [|i rest] eqn:E;
    destruct remove; simpl.
  - rewrite app_nil_r, Hn by reflexivity. destruct trkseg; reflexivity.
  - rewrite app_nil_r. reflexivity.
  - rewrite <- E in *.
    rewrite delete_reversed_filter.
    + simpl. change (single_pass_filter ?f ?l) with (filter_from 0 f l).
      rewrite Hf. reflexivity.
    + exact Hs.
    + eapply Forall_impl; [|exact Hb]. simpl. intros; lia.
  - rewrite app_nil_r. reflexivity.
Qed.

Lemma find_time_errors_eq gpx remove :
  find_time_errors gpx remove = (gpx_lines remove gpx, inr (cleaned remove gpx)).
Proof.
  unfold find_time_errors, gpx_lines, cleaned.
  erewrite bind_returns; [reflexivity| |reflexivity].
  apply for_all_returns with (g := cleaned_track remove)
    (out := fun trk => flat_map (segment_lines remove) (segments trk) ++ []).
  intros trk _. unfold find_time_errors_track, cleaned_track.
  erewrite bind_returns; [reflexivity| |reflexivity].
  apply for_all_returns. intros seg _. apply find_time_errors_segment_eq.
Qed.

(** ** Equality of timestamps *)

Lemma py_eq_sym a b : py_eq a b = py_eq b a.
Proof. destruct a, b; simpl; auto using Z.eqb_sym. Qed.

Lemma py_eq_true_r a b c : py_eq a b = true -> py_eq c a = py_eq c b.
Proof.
  destruct a, b; simpl; try discriminate; intros H;
    try (apply Z.eqb_eq in H; subst); reflexivity.
Qed.

Lemma py_eq_time t u : py_eq (time_obj t) (time_obj u) = true <-> t = u.
Proof.
  destruct t, u; simpl; split; intros H; try discriminate; try reflexivity.
  - apply Z.eqb_eq in H. congruence.
  - injection H as ->. apply Z.eqb_refl.
Qed.

Lemma py_eq_sentinel t : py_eq (time_obj t) sentinel = false.
Proof. destruct t; reflexivity. Qed.

(** ** The survivors *)

Lemma survivors_head pts : forall last,
  match survivors last pts with
  | [] => True
  | q :: _ => py_eq (time_obj (time q)) last = false
  end.
Proof.
  induction pts as [|p r IH]; intros last; simpl.
  - exact I.
  - destruct (py_eq (time_obj (time p)) last) eqn:E.
    + specialize (IH (time_obj (time p))).
      destruct (survivors (time_obj (time p)) r); [exact I|].
      rewrite <- (@py_eq_true_r _ _ _ E). exact IH.
    + exact E.
Qed.

Lemma survivors_no_adjacent_equal pts : forall last,
  no_adjacent_equal (survivors last pts) = true.
Proof.
  induction pts as [|p r IH]; intros last; simpl.
  - reflexivity.
  - destruct (py_eq (time_obj (time p)) last); [apply IH|].
    specialize (IH (time_obj (time p))).
    pose proof (survivors_head r (time_obj (time p))) as H.
    simpl. destruct (survivors (time_obj (time p)) r) as [|q s]; [reflexivity|].
    unfold same_time at 1. rewrite H. simpl. exact IH.
Qed.

(** The boolean check read on indices. *)
Lemma no_adjacent_equal_nth pts : forall i p q,
  no_adjacent_equal pts = true ->
  nth_error pts i = Some p -> nth_error pts (S i) = Some q ->
  same_time p q = false.
Proof.
  induction pts as [|a r IH]; intros i p q H Hp Hq.
  - destruct i; discriminate.
  - destruct r as [|b r']; [destruct i; discriminate|].
    simpl in H. apply andb_true_iff in H. destruct H as [Hab Hr].
    destruct i as [|i].
    + simpl in Hp, Hq. injection Hp as <-. injection Hq as <-.
      unfold same_time in *. rewrite py_eq_sym.
      apply negb_true_iff in Hab. exact Hab.
    + apply (IH i p q Hr); assumption.
Qed.

Lemma no_adjacent_equal_flagged pts : forall k last,
  no_adjacent_equal pts = true ->
  match pts with [] => True | p :: _ => py_eq (time_obj (time p)) last = false end ->
  flagged_from k last pts = [].
Proof.
  induction pts as [|p r IH]; intros k last H Hhd; simpl.
  - reflexivity.
  - rewrite Hhd. apply IH.
    + destruct r; [reflexivity|]. simpl in H. apply andb_true_iff in H. apply H.
    + destruct r as [|q r']; [exact I|]. simpl in H.
      apply andb_true_iff in H. destruct H as [H _].
      apply negb_true_iff in H. exact H.
Qed.

Lemma flagged_from_app l1 : forall l2 k last,
  flagged_from k last (l1 ++ l2)
  = flagged_from k last l1
    ++ flagged_from (k + length l1) (last_time_after last l1) l2.
Proof.
  induction l1 as [|p r IH]; intros l2 k last; simpl.
  - rewrite Nat.add_0_r. reflexivity.
  - rewrite IH. replace (S k + length r) with (k + S (length r)) by lia.
    unfold last_time_after. simpl.
    destruct (py_eq _ last); reflexivity.
Qed.

Lemma reported_from_app l1 : forall l2 k last,
  reported_from k last (l1 ++ l2)
  = reported_from k last l1
    ++ reported_from (k + length l1) (last_time_after last l1) l2.
Proof.
  induction l1 as [|p r IH]; intros l2 k last; simpl.
  - rewrite Nat.add_0_r. reflexivity.
  - rewrite IH. replace (S k + length r) with (k + S (length r)) by lia.
    unfold last_time_after. simpl.
    destruct (py_eq _ last); reflexivity.
Qed.

Lemma survivors_app l1 : forall l2 last,
  survivors last (l1 ++ l2)
  = survivors last l1 ++ survivors (last_time_after last l1) l2.
Proof.
  induction l1 as [|p r IH]; intros l2 last; simpl.
  - reflexivity.
  - rewrite IH. unfold last_time_after. simpl.
    destruct (py_eq _ last); reflexivity.
Qed.

(** Points that repeat the time just seen are all flagged and reported. *)
Lemma repeated_time_flagged run : forall post k tm,
  Forall (fun p => time p = tm) run ->
  forall j, k <= j < k + length run ->
    In j (flagged_from k (time_obj tm) (run ++ post)) /\
    In (OutTimeError tm j) (reported_from k (time_obj tm) (run ++ post)).
Proof.
  induction run as [|p r IH]; intros post k tm Hall j Hj; simpl in *.
  - lia.
  - inversion Hall as [|? ? Hp Hr]; subst.
    assert (E : py_eq (time_obj (time p)) (time_obj (time p)) = true)
      by (apply py_eq_time; reflexivity).
    rewrite E.
    destruct (Nat.eq_dec j k) as [->|Hne].
    + split; left; reflexivity.
    + destruct (IH post (S k) (time p) Hr j) as [H1 H2]; [lia|].
      split; right; assumption.
Qed.

Lemma flat_map_all_nil {A B} (f : A -> list B) l :
  (forall x, In x l -> f x = []) -> flat_map f l = [].
Proof.
  induction l as [|x r IH]; intros H; simpl; [reflexivity|].
  rewrite (H x (or_introl eq_refl)), IH by (intros; apply H; right; assumption).
  reflexivity.
Qed.

(** ** The timestamp scanner: the properties of the specification *)

Lemma cleaned_true_clean gpx : clean_gpx (cleaned true gpx) = true.
Proof.
  unfold clean_gpx, gpx_segments. apply forallb_forall. intros seg Hseg.
  apply in_flat_map in Hseg. destruct Hseg as [trk [Htrk Hseg]].
  simpl in Htrk. apply in_map_iff in Htrk. destruct Htrk as [trk0 [<- _]].
  simpl in Hseg. apply in_map_iff in Hseg. destruct Hseg as [seg0 [<- _]].
  simpl. apply survivors_no_adjacent_equal.
Qed.

(** C1.  After [find_time_errors(gpx, remove=True)] has returned (and it
    always returns), no segment of any track holds two neighbouring points
    with equal timestamps: in every segment, the point at index [i] and the
    point at index [i + 1] compare unequal. *)
Theorem find_time_errors_remove_no_adjacent_equal (gpx : GPX) :
  exists lines gpx',
    find_time_errors gpx true = (lines, inr gpx') /\
    clean_gpx gpx' = true /\
    forall trk seg i p q,
      In trk (tracks gpx') -> In seg (segments trk) ->
      nth_error (points seg) i = Some p ->
      nth_error (points seg) (S i) = Some q ->
      py_eq (time_obj (time p)) (time_obj (time q)) = false.
Proof.
  exists (gpx_lines true gpx), (cleaned true gpx).
  split; [apply find_time_errors_eq|].
  split; [apply cleaned_true_clean|].
  intros trk seg i p q Htrk Hseg Hp Hq.
  apply (@no_adjacent_equal_nth (points seg) i p q); try assumption.
  pose proof (cleaned_true_clean gpx) as H.
  unfold clean_gpx in H. rewrite forallb_forall in H. apply H.
  unfold gpx_segments. apply in_flat_map. exists trk. split; assumption.
Qed.

(** C2.  In a segment [pre ++ run ++ post] whose [run] has three or more
    points, all with the timestamp [tm], the traversal flags (and reports)
    every index of the run after its first; and with [remove=True] a
    segment with the timestamps [t, t, t, u], [u] different from [t], is
    left with its first and its fourth point. *)
Theorem find_time_errors_flags_runs :
  (forall pre run post tm,
     3 <= length run ->
     Forall (fun p => time p = tm) run ->
     exists lines time_errors,
       scan_segment (mkSegment (pre ++ run ++ post)) = (lines, inr time_errors) /\
       forall j, length pre < j < length pre + length run ->
         In j time_errors /\ In (OutTimeError tm j) lines) /\
  (forall p1 p2 p3 p4,
     time p2 = time p1 -> time p3 = time p1 -> time p4 <> time p1 ->
     exists lines,
       find_time_errors (mkGPX [mkTrack [mkSegment [p1; p2; p3; p4]]]) true
       = (lines, inr (mkGPX [mkTrack [mkSegment [p1; p4]]]))).
Proof.
  split.
  - intros pre run post tm Hlen Hall.
    eexists _, _. split; [apply scan_segment_eq|].
    intros j Hj. simpl.
    destruct run as [|p run']; [simpl in Hlen; lia|].
    inversion Hall as [|? ? Hp Hrun']; subst.
    change (pre ++ (p :: run') ++ post) with (pre ++ [p] ++ (run' ++ post)).
    rewrite app_assoc, flagged_from_app, reported_from_app.
    assert (L : last_time_after sentinel (pre ++ [p]) = time_obj (time p)).
    { unfold last_time_after. rewrite fold_left_app. reflexivity. }
    rewrite L.
    destruct (@repeated_time_flagged run' post (0 + length (pre ++ [p])) (time p)
                Hrun' j) as [H1 H2].
    + rewrite length_app. simpl in *. lia.
    + split; apply in_or_app; right; assumption.
  - intros p1 p2 p3 p4 H2 H3 H4.
    assert (E : py_eq (time_obj (time p1)) (time_obj (time p1)) = true)
      by (apply py_eq_time; reflexivity).
    assert (N : py_eq (time_obj (time p4)) (time_obj (time p1)) = false).
    { destruct (py_eq (time_obj (time p4)) (time_obj (time p1))) eqn:X;
        [|reflexivity].
      apply py_eq_time in X. contradiction. }
    eexists. rewrite find_time_errors_eq. f_equal.
    unfold cleaned, cleaned_track, cleaned_segment. simpl.
    rewrite py_eq_sentinel, H2, H3, E, N. reflexivity.
Qed.

(** C3.  The deletion loop of [find_time_errors], over the indices the
    traversal flagged and from the largest down, never raises and leaves
    what a single pass keeping the non-flagged indices leaves; and
    deleting index 2, then index 1, of any four elements is that single
    pass for the flagged indices [1, 2]. *)
Theorem delete_descending_is_single_pass :
  (forall trkseg, exists lines time_errors,
     scan_segment trkseg = (lines, inr time_errors) /\
     delete_reversed time_errors (points trkseg)
     = ([], inr (single_pass_filter time_errors (points trkseg)))) /\
  (forall (A : Type) (a b c d : A),
     delete_reversed [1; 2] [a; b; c; d] = ([], inr [a; d]) /\
     single_pass_filter [1; 2] [a; b; c; d] = [a; d]).
Proof.
  split.
  - intros trkseg. eexists _, _. split; [apply scan_segment_eq|].
    apply delete_reversed_filter.
    + apply flagged_from_sorted.
    + eapply Forall_impl; [|apply flagged_from_bounds]. simpl. intros; lia.
  - intros A a b c d. split; reflexivity.
Qed.

(** C4.  When no point of any segment has the timestamp of the point before
    it, [find_time_errors(gpx, remove=True)] prints nothing, flags nothing
    and leaves the track structure as it was.  Segments with no or one
    point, with pairwise distinct timestamps, and with the timestamps
    [t, u, t] are such segments. *)
Theorem find_time_errors_clean_unchanged :
  (forall gpx,
     clean_gpx gpx = true ->
     find_time_errors gpx true = ([], inr gpx) /\
     forall seg, In seg (gpx_segments gpx) -> scan_segment seg = ([], inr [])) /\
  (forall pts, length pts <= 1 -> no_adjacent_equal pts = true) /\
  (forall pts, NoDup (map time pts) -> no_adjacent_equal pts = true) /\
  (forall p q r, time p <> time q -> time q <> time r ->
     no_adjacent_equal [p; q; r] = true).
Proof.
  assert (Hflag : forall pts, no_adjacent_equal pts = true ->
                              flagged_from 0 sentinel pts = []).
  { intros pts H. apply no_adjacent_equal_flagged; [exact H|].
    destruct pts; [exact I|apply py_eq_sentinel]. }
  assert (Hne : forall p q, time p <> time q -> negb (same_time q p) = true).
  { intros p q H. apply negb_true_iff. unfold same_time.
    destruct (py_eq _ _) eqn:X; [|reflexivity].
    apply py_eq_time in X. congruence. }
  repeat split.
  - rewrite find_time_errors_eq.
    unfold clean_gpx, gpx_segments in H. rewrite forallb_forall in H.
    assert (Hseg : forall trk seg, In trk (tracks gpx) -> In seg (segments trk) ->
                     segment_lines true seg = [] /\ cleaned_segment true seg = seg).
    { intros trk seg Ht Hs.
      assert (F : flagged_from 0 sentinel (points seg) = []).
      { apply Hflag, H, in_flat_map. exists trk. split; assumption. }
      unfold segment_lines, cleaned_segment.
      rewrite F, (flagged_nil_reported _ _ _ F), (flagged_nil_survivors _ _ _ F).
      destruct seg; split; reflexivity. }
    f_equal.
    + unfold gpx_lines. rewrite app_nil_r.
      apply flat_map_all_nil. intros trk Ht. rewrite app_nil_r.
      apply flat_map_all_nil. intros seg Hs. apply (Hseg trk seg Ht Hs).
    + f_equal. destruct gpx as [trks]. unfold cleaned. simpl in *. f_equal.
      rewrite <- (map_id trks) at 2. apply map_ext_in.
      intros trk Ht. destruct trk as [segs]. unfold cleaned_track. simpl. f_equal.
      rewrite <- (map_id segs) at 2. apply map_ext_in.
      intros seg Hs. apply (Hseg (mkTrack segs) seg); assumption.
  - intros seg Hs. rewrite scan_segment_eq.
    unfold clean_gpx in H. rewrite forallb_forall in H.
    pose proof (Hflag _ (H seg Hs)) as F.
    rewrite F, (flagged_nil_reported _ _ _ F). reflexivity.
  - intros pts Hlen. destruct pts as [|p [|q r]]; simpl in *; try reflexivity; lia.
  - intros pts. induction pts as [|p r IH]; intros Hnd; [reflexivity|].
    destruct r as [|q r']; [reflexivity|].
    simpl in Hnd. inversion Hnd as [|? ? Hnotin Hnd']; subst.
    change (negb (same_time q p) && no_adjacent_equal (q :: r') = true).
    rewrite IH by exact Hnd'. rewrite Hne; [reflexivity|].
    intros E. apply Hnotin. left. symmetry. exact E.
  - intros p q r Hpq Hqr. simpl. rewrite !Hne by assumption. reflexivity.
Qed.

(** C5.  [find_time_errors(gpx, remove=False)] returns and leaves the track
    structure, every point list included, as it was: what it detects is
    only printed. *)
Theorem find_time_errors_report_only (gpx : GPX) :
  exists lines, find_time_errors gpx false = (lines, inr gpx).
Proof.
  exists (gpx_lines false gpx). rewrite find_time_errors_eq. f_equal. f_equal.
  destruct gpx as [trks]. unfold cleaned. simpl. f_equal.
  rewrite <- (map_id trks) at 2. apply map_ext.
  intros [segs]. unfold cleaned_track. simpl. f_equal.
  rewrite <- (map_id segs) at 2. apply map_ext. reflexivity.
Qed.

(** C10.  Two neighbouring points that both lack a timestamp compare
    equal: the second is flagged, and with [remove=True] the segment is
    left as it would be had the second never been there.  The first point
    of a segment is never flagged and stays first, whatever its timestamp,
    because the sentinel [-1] equals neither a [datetime] nor [None]. *)
Theorem find_time_errors_missing_timestamps :
  (forall pre p q post,
     time p = None -> time q = None ->
     exists reported time_errors lines lines' trkseg',
       scan_segment (mkSegment (pre ++ p :: q :: post)) = (reported, inr time_errors) /\
       In (S (length pre)) time_errors /\
       find_time_errors_segment true (mkSegment (pre ++ p :: q :: post))
       = (lines, inr trkseg') /\
       find_time_errors_segment true (mkSegment (pre ++ p :: post))
       = (lines', inr trkseg')) /\
  (forall trkseg, exists reported time_errors,
     scan_segment trkseg = (reported, inr time_errors) /\ ~ In 0 time_errors) /\
  (forall remove p rest, exists lines rest',
     find_time_errors_segment remove (mkSegment (p :: rest))
     = (lines, inr (mkSegment (p :: rest')))) /\
  (forall t, py_eq (time_obj t) sentinel = false) /\
  sentinel = PyInt (-1).
Proof.
  repeat split.
  - intros pre p q post Hp Hq.
    eexists _, _, _, _, _.
    rewrite scan_segment_eq, !find_time_errors_segment_eq.
    split; [reflexivity|]. split; [|split; [reflexivity|]].
    + simpl. rewrite flagged_from_app. apply in_or_app. right.
      simpl. rewrite Hp, Hq. simpl.
      match goal with |- context [if ?b then _ else _] => destruct b end;
        [right|]; left; lia.
    + f_equal. f_equal. unfold cleaned_segment. simpl. f_equal.
      rewrite !survivors_app. f_equal. simpl. rewrite Hp, Hq. reflexivity.
  - intros trkseg. eexists _, _. split; [apply scan_segment_eq|].
    destruct (points trkseg) as [|p r]; simpl; [tauto|].
    rewrite py_eq_sentinel. intros H.
    pose proof (flagged_from_bounds r 1 (time_obj (time p))) as B.
    rewrite Forall_forall in B. specialize (B 0 H). lia.
  - intros remove p rest. rewrite find_time_errors_segment_eq.
    unfold cleaned_segment. destruct remove; simpl.
    + rewrite py_eq_sentinel. eexists _, _. reflexivity.
    + eexists _, _. reflexivity.
  - apply py_eq_sentinel.
Qed.

(** ** The order of strings and of sort keys *)

Lemma ascii_compare_refl c : Ascii.compare c c = Eq.
Proof. unfold Ascii.compare. apply N.compare_refl. Qed.

Lemma ascii_compare_lt_trans a b c :
  Ascii.compare a b = Lt -> Ascii.compare b c = Lt -> Ascii.compare a c = Lt.
Proof.
  unfold Ascii.compare. rewrite !N.compare_lt_iff. apply N.lt_trans.
Qed.

Lemma string_compare_refl s : String.compare s s = Eq.
Proof.
  induction s as [|c s IH]; simpl; [reflexivity|].
  rewrite ascii_compare_refl. exact IH.
Qed.

Lemma string_compare_lt_trans a : forall b c,
  String.compare a b = Lt -> String.compare b c = Lt -> String.compare a c = Lt.
Proof.
  induction a as [|x a IH]; intros [|y b] [|z c]; simpl; try discriminate; auto.
  destruct (Ascii.compare x y) eqn:Exy; try discriminate;
    destruct (Ascii.compare y z) eqn:Eyz; try discriminate; intros H1 H2.
  - apply Ascii.compare_eq_iff in Exy, Eyz. subst.
    rewrite ascii_compare_refl. eauto.
  - apply Ascii.compare_eq_iff in Exy. subst. rewrite Eyz. reflexivity.
  - apply Ascii.compare_eq_iff in Eyz. subst. rewrite Exy. reflexivity.
  - rewrite (ascii_compare_lt_trans _ _ _ Exy Eyz). reflexivity.
Qed.

Lemma tuple_ltb_compare a b :
  tuple_ltb a b = match tuple_compare a b with Lt => true | _ => false end.
Proof.
  unfold tuple_ltb, tuple_compare, String.ltb.
  destruct (String.compare (fst a) (fst b)); reflexivity.
Qed.

Lemma tuple_compare_antisym a b :
  tuple_compare a b = CompOpp (tuple_compare b a).
Proof.
  unfold tuple_compare.
  rewrite (String.compare_antisym (fst a)), (String.compare_antisym (snd a)).
  destruct (String.compare (fst b) (fst a)); reflexivity.
Qed.

Lemma tuple_compare_eq a b : tuple_compare a b = Eq -> a = b.
Proof.
  unfold tuple_compare. destruct a as [a1 a2], b as [b1 b2]. simpl.
  destruct (String.compare a1 b1) eqn:E1; try discriminate.
  intros E2. apply String.compare_eq_iff in E1, E2. congruence.
Qed.

Lemma tuple_compare_lt_trans a b c :
  tuple_compare a b = Lt -> tuple_compare b c = Lt -> tuple_compare a c = Lt.
Proof.
  unfold tuple_compare. destruct a as [a1 a2], b as [b1 b2], c as [c1 c2]. simpl.
  destruct (String.compare a1 b1) eqn:E1; try discriminate;
    destruct (String.compare b1 c1) eqn:E2; try discriminate; intros H1 H2.
  - apply String.compare_eq_iff in E1, E2. subst.
    rewrite string_compare_refl. eapply string_compare_lt_trans; eassumption.
  - apply String.compare_eq_iff in E1. subst. rewrite E2. reflexivity.
  - apply String.compare_eq_iff in E2. subst. rewrite E1. reflexivity.
  - rewrite (string_compare_lt_trans _ _ _ E1 E2). reflexivity.
Qed.

(** [<] on keys is asymmetric, and [<=] is transitive. *)
Lemma tuple_ltb_asym a b : tuple_ltb a b = true -> tuple_le a b.
Proof.
  unfold tuple_le. rewrite !tuple_ltb_compare, (tuple_compare_antisym b a).
  destruct (tuple_compare a b); simpl; congruence.
Qed.

Lemma tuple_le_trans a b c : tuple_le a b -> tuple_le b c -> tuple_le a c.
Proof.
  unfold tuple_le. rewrite !tuple_ltb_compare. intros Hab Hbc.
  destruct (tuple_compare c a) eqn:Eca; try reflexivity. exfalso.
  destruct (tuple_compare b a) eqn:Eba; try discriminate.
  - apply tuple_compare_eq in Eba. subst b. rewrite Eca in Hbc. discriminate.
  - rewrite tuple_compare_antisym in Eba.
    destruct (tuple_compare a b) eqn:Eab; try discriminate.
    rewrite (tuple_compare_lt_trans _ _ _ Eca Eab) in Hbc. discriminate.
Qed.

(** ** Sorting *)

Lemma insert_sorted_perm x l : Permutation (insert_sorted x l) (x :: l).
Proof.
  induction l as [|y r IH]; simpl; [reflexivity|].
  destruct (tuple_ltb y x); [|reflexivity].
  rewrite IH. apply perm_swap.
Qed.

Lemma list_sort_perm l : Permutation (list_sort l) l.
Proof.
  induction l as [|x r IH]; simpl; [reflexivity|].
  rewrite insert_sorted_perm, IH. reflexivity.
Qed.

Lemma insert_sorted_sorted x l :
  StronglySorted tuple_le l -> StronglySorted tuple_le (insert_sorted x l).
Proof.
  induction l as [|y r IH]; intros Hs; simpl.
  - repeat constructor.
  - inversion Hs as [|? ? Hr Hy]; subst.
    destruct (tuple_ltb y x) eqn:E.
    + constructor; [apply IH; exact Hr|].
      eapply Permutation_Forall; [symmetry; apply insert_sorted_perm|].
      constructor; [apply tuple_ltb_asym; exact E|exact Hy].
    + constructor; [exact Hs|].
      constructor; [exact E|].
      eapply Forall_impl; [|exact Hy].
      intros z Hz. eapply tuple_le_trans; [exact E|exact Hz].
Qed.

Lemma list_sort_sorted l : StronglySorted tuple_le (list_sort l).
Proof.
  induction l as [|x r IH]; simpl; [constructor|].
  apply insert_sorted_sorted. exact IH.
Qed.

(** ** Splitting and joining a file name *)

Lemma slice_to_from n : forall s, (slice_to n s ++ slice_from n s)%string = s.
Proof.
  induction n as [|n IH]; intros [|c s]; simpl; try reflexivity.
  rewrite IH. reflexivity.
Qed.

Lemma rejoin_vidseg fn : rejoin (vidseg fn) = fn.
Proof. unfold rejoin, vidseg. apply slice_to_from. Qed.

Lemma map_rejoin_vidseg l l' :
  Permutation l' (map vidseg l) -> map vidseg (map rejoin l') = l'.
Proof.
  intros HP. rewrite map_map. rewrite <- (map_id l') at 2.
  apply map_ext_in. intros vs Hin.
  apply (Permutation_in _ HP) in Hin. apply in_map_iff in Hin.
  destruct Hin as [fn [<- _]]. rewrite rejoin_vidseg. reflexivity.
Qed.

(** ** The renderer *)

(** C8 fails on the code: for a track structure without points the
    exception [overlayGPX] raises is the [ZeroDivisionError] of the
    division by [len(points)], an arithmetic error. *)
Lemma overlayGPX_empty_not_named_error :
  ~ (exists e,
       overlayGPX example_platform (mkGPX []) 14 = inl e /\
       is_ArithmeticError e = false).
Proof. intros [e [H1 H2]]. injection H1 as <-. discriminate. Qed.

(** C8, amended.  For a track structure without points [overlayGPX] builds
    no map: it raises [ZeroDivisionError], from the division of the sum of
    the latitudes by [len(points)]. *)
Theorem overlayGPX_empty_raises_ZeroDivisionError (P : platform) (gpx : GPX) (zoom : Z) :
  all_points gpx = [] -> overlayGPX P gpx zoom = inl ZeroDivisionError.
Proof. intros H. unfold overlayGPX. rewrite H. reflexivity. Qed.

Lemma overlayGPX_empty_raises_ZeroDivisionError_witness :
  all_points (mkGPX [mkTrack [mkSegment []]; mkTrack []]) = [] /\
  overlayGPX example_platform (mkGPX [mkTrack [mkSegment []]; mkTrack []]) 14
  = inl ZeroDivisionError.
Proof.
  split; [reflexivity|].
  apply (overlayGPX_empty_raises_ZeroDivisionError example_platform
           (mkGPX [mkTrack [mkSegment []]; mkTrack []]) 14).
  reflexivity.
Defined.

(** ** Running programs *)

Lemma run_pbind {W A B} (h : handler W) (p : prog A) (f : A -> prog B) : forall w,
  run h (pbind p f) w
  = match run h p w with
    | (t, inl e, w') => (t, inl e, w')
    | (t, inr a, w') =>
        let '(t', r, w'') := run h (f a) w' in (t ++ t', r, w'')
    end.
Proof.
  induction p as [a|e|c k IH]; intros w; simpl.
  - destruct (run h (f a) w) as [[t r] w']. reflexivity.
  - reflexivity.
  - destruct (h c w) as [[e|x] w']; [reflexivity|].
    rewrite IH. destruct (run h (k x) w') as [[t [e|a]] w'']; [reflexivity|].
    destruct (run h (f a) w'') as [[t' r] w3]. reflexivity.
Qed.

(** Printing makes no library call, and it ends as told unless a [print]
    raises. *)
Lemma run_print_all {W A} (h : handler W) (r : exn + A) lines : forall w,
  exists t res w',
    run h (print_all lines r) w = (t, res, w') /\
    library_events t = [] /\
    (res = r \/ exists e, res = inl e).
Proof.
  induction lines as [|o rest IH]; intros w; simpl.
  - destruct r as [e|a]; eexists _, _, _; (split; [reflexivity|]); auto.
  - destruct (h (CPrint o) w) as [[e|x] w'].
    + eexists _, _, _. split; [reflexivity|]. split; [reflexivity|]. eauto.
    + destruct (IH w') as [t [res [w'' [E [L R]]]]]. rewrite E.
      eexists _, _, _. split; [reflexivity|]. split; [exact L|exact R].
Qed.

(** C9.  [shell] makes the same single call, of the fixed command
    [echo %CD%], whatever its argument: against every world two calls of
    [shell] with different arguments run alike and return the same text. *)
Theorem shell_ignores_cmdline (x y : string) :
  shell x = shell y /\
  forall (W : Type) (h : handler W) (w : W),
    run h (shell x) w = run h (shell y) w /\
    library_calls (fst (fst (run h (shell x) w))) = [CSubprocessShell "echo %CD%"].
Proof.
  split; [reflexivity|]. intros W h w. split; [reflexivity|].
  unfold shell. simpl. destruct (h _ w) as [[e|out] w']; reflexivity.
Qed.

(** ** The pipeline *)

Ltac call_step h :=
  match goal with
  | |- context [h ?c ?w] =>
      let e := fresh "e" in
      let x := fresh "x" in
      let w' := fresh "w" in
      destruct (h c w) as [[e|x] w']
  end.

Ltac stopped_after L n :=
  eexists _, _, _, _, _, _, _, _, n;
  unfold library_calls, library_events; simpl;
  rewrite ?filter_app, ?L; simpl;
  split; [reflexivity | try (intros; discriminate)].

Ltac stopped L :=
  first [ stopped_after L 0 | stopped_after L 1 | stopped_after L 2
        | stopped_after L 3 | stopped_after L 4 | stopped_after L 5
        | stopped_after L 6 | stopped_after L 7 | stopped_after L 8 ].

(** Every run of the loop body, against every world: the library calls
    made are the first [n] calls of the full sequence, and all of it when
    the body ends without an exception. *)
Lemma process_file_trace {W} (h : handler W) P indir outdir ed fn w :
  exists gpx_text gpx0 gpx1 gpx2 gpx3 ud md map_obj n,
    let full :=
      full_trace P indir outdir ed fn gpx_text gpx0 gpx1 gpx2 gpx3 ud md map_obj in
    let '(t, r, _) := run h (process_file P indir outdir ed fn) w in
    library_calls t = firstn n (map ev_call full) /\
    (r = inr tt -> library_events t = full /\ overlayGPX P gpx3 14 = inr map_obj).
Proof.
  unfold process_file, full_trace. cbn [pbind perform print].
  simpl run.
  do 5 (call_step h; [stopped (@eq_refl nat 0)|]).
  rewrite run_pbind. unfold emit. rewrite find_time_errors_eq.
  simpl fst; simpl snd.
  match goal with
  | |- context [run h (print_all ?l ?r) ?w] =>
      destruct (run_print_all h r l w) as [t_fte [res [w' [E [L R]]]]]
  end.
  rewrite E. unfold library_events in L.
  destruct R as [->|[e ->]]; [|stopped L].
  simpl run.
  do 10 (call_step h; [stopped L|]).
  destruct (overlayGPX P _ 14) as [e|map_obj] eqn:Eo; simpl run; [stopped L|].
  do 2 (call_step h; [stopped L|]).
  eexists _, _, _, _, _, _, _, _, 8.
  unfold library_calls, library_events; simpl.
  rewrite ?filter_app, ?L; simpl.
  split; [reflexivity|]. intros _. split; [|exact Eo].
  repeat match goal with
         | u : answer (CSave _ _) |- _ => destruct u
         | u : unit |- _ => destruct u
         end.
  reflexivity.
  Unshelve.
  all: first [ exact (mkGPX []) | exact EmptyString | exact (mkUD 0 0)
             | exact (mkMD 0 0 0 0 0) | exact (mkMap (0%float, 0%float) 0 []) ].
Qed.

Lemma library_events_app t1 t2 :
  library_events (t1 ++ t2) = library_events t1 ++ library_events t2.
Proof. apply filter_app. Qed.

(** A loop over the files that ends without an exception has run its body
    to the end on every file, in the order of the list. *)
Lemma for_files_trace {W} (h : handler W) (body : string -> prog unit)
  (Q : string -> list event -> Prop) :
  (forall fn w, let '(t, r, _) := run h (body fn) w in
                r = inr tt -> Q fn (library_events t)) ->
  forall l w, let '(t, r, _) := run h (for_files l body) w in
              r = inr tt ->
              exists chunks, library_events t = concat chunks /\ Forall2 Q l chunks.
Proof.
  intros Hbody. induction l as [|fn rest IH]; intros w; simpl.
  - intros _. exists []. split; [reflexivity|constructor].
  - rewrite run_pbind. specialize (Hbody fn w).
    destruct (run h (body fn) w) as [[t [e|[]]] w']; [discriminate|].
    specialize (IH w').
    destruct (run h (for_files rest body) w') as [[t' r] w''].
    intros Hr. destruct (IH Hr) as [chunks [E F]].
    exists (library_events t :: chunks). split.
    + rewrite library_events_app, E. reflexivity.
    + constructor; [apply Hbody; reflexivity|exact F].
Qed.

Lemma process_file_pipeline {W} (h : handler W) P indir outdir ed fn w :
  let '(t, r, _) := run h (process_file P indir outdir ed fn) w in
  r = inr tt -> file_pipeline P indir outdir ed fn (library_events t).
Proof.
  destruct (process_file_trace h P indir outdir ed fn w)
    as (gpx_text & gpx0 & gpx1 & gpx2 & gpx3 & ud & md & map_obj & n & H).
  cbv zeta in H.
  destruct (run h (process_file P indir outdir ed fn) w) as [[t r] w'].
  intros Hr. destruct H as [_ H]. destruct (H Hr) as [E Eo].
  exists gpx_text, gpx0, (gpx_lines true gpx0), (cleaned true gpx0),
    gpx1, gpx2, gpx3, ud, md, map_obj.
  split; [apply find_time_errors_eq|]. split; [exact Eo|exact E].
Qed.

(** A run of [main] that ends without an exception: the three calls before
    the loop, then the pipeline of each file, in the order [order_files]
    gives to the listed names that match. *)
Lemma main_trace {W} (h : handler W) P argv w :
  3 <= length argv ->
  let '(t, r, _) := run h (main P argv) w in
  r = inr tt ->
  exists cwd names elevation_data chunks,
    library_events t
    = [answered (CSubprocessShell "echo %CD%") cwd;
       answered (CListdir (nth 1 argv EmptyString)) names;
       answered CSrtmGetData elevation_data] ++ concat chunks /\
    Forall2 (file_pipeline P (nth 1 argv EmptyString) (nth 2 argv EmptyString)
               elevation_data)
            (order_files (fnmatch_filter_mp4 P names)) chunks.
Proof.
  intros Hlen. unfold main.
  replace (length argv <? 3) with false by (symmetry; apply Nat.ltb_ge; exact Hlen).
  unfold shell. cbn [pbind perform print]. simpl run.
  do 5 (call_step h; [intros; discriminate|]).
  pose proof (for_files_trace h
                (process_file P (nth 1 argv EmptyString) (nth 2 argv EmptyString) x3)
                (file_pipeline P (nth 1 argv EmptyString) (nth 2 argv EmptyString) x3)
                (fun fn w => process_file_pipeline h P _ _ x3 fn w)
                (order_files (fnmatch_filter_mp4 P x1)) w4) as H.
  destruct (run h (for_files _ _) w4) as [[t r] w'].
  intros Hr. destruct (H Hr) as [chunks [E F]].
  exists x, x1, x3, chunks. split; [|exact F].
  unfold library_events in *. simpl. rewrite E. reflexivity.
Qed.

Lemma In_firstn {A} (x : A) n : forall l, In x (firstn n l) -> In x l.
Proof.
  induction n as [|n IH]; intros [|y l]; simpl; try tauto.
  intros [H|H]; [left; exact H|right; apply IH; exact H].
Qed.

(** C6.  Against every world, the library calls a file goes through are a
    beginning of: extraction, parsing, horizontal-only smoothing, elevation
    fill, vertical-only smoothing, uphill/downhill, moving data, saving the
    map; all of it when no call raises.  The track handed to the
    horizontal smoothing is the parsed one after [find_time_errors] with
    [remove=True], so it holds no neighbouring equal timestamps; no
    horizontal smoothing follows the elevation fill; the map saved is
    [overlayGPX] of the track after the vertical smoothing.  A run of
    [main] that ends without an exception has taken every file through
    all of this, one file after the other. *)
Theorem pipeline_stage_order (P : platform) :
  (forall (W : Type) (h : handler W) indir outdir elevation_data fn w,
     let '(t, r, _) := run h (process_file P indir outdir elevation_data fn) w in
     (exists n, stages t = firstn n pipeline_stages) /\
     no_horizontal_after_fill false (stages t) = true /\
     (forall vertical gpx,
        In (CSmooth vertical true gpx) (library_calls t) ->
        vertical = false /\ clean_gpx gpx = true) /\
     (r = inr tt ->
      stages t = pipeline_stages /\
      file_pipeline P indir outdir elevation_data fn (library_events t))) /\
  (forall (W : Type) (h : handler W) argv w,
     3 <= length argv ->
     let '(t, r, _) := run h (main P argv) w in
     r = inr tt ->
     exists cwd names elevation_data chunks,
       library_events t
       = [answered (CSubprocessShell "echo %CD%") cwd;
          answered (CListdir (nth 1 argv EmptyString)) names;
          answered CSrtmGetData elevation_data] ++ concat chunks /\
       Forall2 (file_pipeline P (nth 1 argv EmptyString) (nth 2 argv EmptyString)
                  elevation_data)
               (order_files (fnmatch_filter_mp4 P names)) chunks).
Proof.
  split; [|intros W h argv w; apply main_trace].
  intros W h indir outdir ed fn w.
  pose proof (process_file_pipeline h P indir outdir ed fn w) as HP.
  destruct (process_file_trace h P indir outdir ed fn w)
    as (gpx_text & gpx0 & gpx1 & gpx2 & gpx3 & ud & md & map_obj & n & H).
  cbv zeta in H.
  destruct (run h (process_file P indir outdir ed fn) w) as [[t r] w'].
  destruct H as [Hcalls Hdone].
  assert (Hst : stages t = firstn n pipeline_stages).
  { unfold stages. rewrite Hcalls, <- firstn_map. reflexivity. }
  split; [exists n; exact Hst|]. split; [|split].
  - rewrite Hst. do 9 (destruct n as [|n]; [reflexivity|]). reflexivity.
  - intros vertical gpx Hin. rewrite Hcalls in Hin. apply In_firstn in Hin.
    simpl in Hin.
    repeat (destruct Hin as [Hin|Hin]; [try discriminate|]); try contradiction.
    injection Hin as <- <-. split; [reflexivity|apply cleaned_true_clean].
  - intros Hr. split; [|apply HP; exact Hr].
    unfold stages, library_calls. destruct (Hdone Hr) as [-> _]. reflexivity.
Qed.

(** ** The order in which [main] extracts *)

Lemma extracted_pipeline P indir outdir ed l : forall chunks,
  Forall2 (file_pipeline P indir outdir ed) l chunks ->
  flat_map (fun c => match c with CExiftool args => [args] | _ => [] end)
           (map ev_call (concat chunks))
  = map (fun fn => exiftool_args (path_join P indir fn)) l.
Proof.
  induction l as [|fn rest IH]; intros chunks F; inversion F as [|? ? ? ? Hc F']; subst.
  - reflexivity.
  - destruct Hc as (gpx_text & gpx0 & lines & gpx0' & gpx1 & gpx2 & gpx3 & ud & md
                    & map_obj & _ & _ & ->).
    simpl. rewrite (IH _ F'). reflexivity.
Qed.

(** [main] hands the files to exiftool in the order of [order_files]. *)
Lemma main_extracts_in_order {W} (h : handler W) P argv w :
  3 <= length argv ->
  let '(t, r, _) := run h (main P argv) w in
  r = inr tt ->
  exists names,
    In (answered (CListdir (nth 1 argv EmptyString)) names) t /\
    extracted t
    = map (fun fn => exiftool_args (path_join P (nth 1 argv EmptyString) fn))
          (order_files (fnmatch_filter_mp4 P names)).
Proof.
  intros Hlen. pose proof (main_trace h P argv w Hlen) as H.
  destruct (run h (main P argv) w) as [[t r] w'].
  intros Hr. destruct (H Hr) as (cwd & names & ed & chunks & E & F).
  exists names. split.
  - assert (Hin : In (answered (CListdir (nth 1 argv EmptyString)) names)
                     (library_events t)).
    { rewrite E. right. left. reflexivity. }
    unfold library_events in Hin. apply filter_In in Hin. apply Hin.
  - unfold extracted, library_calls. rewrite E, map_app, flat_map_app.
    rewrite (extracted_pipeline F). reflexivity.
Qed.

(** A run of [main] against the example world: the three recordings are
    extracted in recording order, and the repeated timestamp is gone from
    the track handed to the horizontal smoothing. *)
Example main_example_run :
  let '(t, r, _) := run example_handler
                        (main example_platform ["postprocess.py"; "in"; "out"]%string) tt in
  r = inr tt /\
  extracted t
  = [exiftool_args "in\GX010001.mp4"; exiftool_args "in\GX020001.mp4";
     exiftool_args "in\GX010002.mp4"] /\
  stages t
  = [StOther; StOther; StOther] ++ pipeline_stages ++ pipeline_stages ++ pipeline_stages /\
  In (CSmooth false true
        (mkGPX [mkTrack [mkSegment [point_at (Some 10%Z); point_at (Some 11%Z)]]]))
     (library_calls t).
Proof. vm_compute. repeat split. right. right. right. right. right. left. reflexivity. Qed.

(** C7.  Listed in any of the six possible orders, the files GX010001.mp4,
    GX020001.mp4 and GX010002.mp4 are processed in the order GX010001.mp4,
    GX020001.mp4, GX010002.mp4.  In general the processed list holds the
    listed names, each put together again unchanged from its first four
    characters and the rest, and its keys [(fn[4:], fn[:4])] are the sorted
    keys of the listed names, in ascending order of the pair: the rest of
    the name decides, the first four characters break ties.  A run of
    [main] that ends without an exception has handed the matching names
    of the listing to exiftool in that order. *)
Theorem order_files_by_suffix_then_prefix :
  Forall (fun listed =>
            order_files listed = ["GX010001.mp4"; "GX020001.mp4"; "GX010002.mp4"]%string)
         [ ["GX010001.mp4"; "GX020001.mp4"; "GX010002.mp4"];
           ["GX010001.mp4"; "GX010002.mp4"; "GX020001.mp4"];
           ["GX020001.mp4"; "GX010001.mp4"; "GX010002.mp4"];
           ["GX020001.mp4"; "GX010002.mp4"; "GX010001.mp4"];
           ["GX010002.mp4"; "GX010001.mp4"; "GX020001.mp4"];
           ["GX010002.mp4"; "GX020001.mp4"; "GX010001.mp4"] ]%string /\
  (forall mp4,
     Permutation (order_files mp4) mp4 /\
     map vidseg (order_files mp4) = list_sort (map vidseg mp4) /\
     StronglySorted tuple_le (map vidseg (order_files mp4))) /\
  (forall fn,
     vidseg fn = (slice_from 4 fn, slice_to 4 fn) /\
     rejoin (vidseg fn) = fn /\
     (slice_to 4 fn ++ slice_from 4 fn)%string = fn) /\
  (forall a b,
     tuple_le a b <->
     String.ltb (fst a) (fst b) = true \/
     (fst a = fst b /\ String.leb (snd a) (snd b) = true)) /\
  (forall (P : platform) (W : Type) (h : handler W) argv w,
     3 <= length argv ->
     let '(t, r, _) := run h (main P argv) w in
     r = inr tt ->
     exists names,
       In (answered (CListdir (nth 1 argv EmptyString)) names) t /\
       extracted t
       = map (fun fn => exiftool_args (path_join P (nth 1 argv EmptyString) fn))
             (order_files (fnmatch_filter_mp4 P names))).
Proof.
  split; [repeat constructor|].
  split; [|split; [|split; [|intros P W h argv w; apply main_extracts_in_order]]].
  - intros mp4.
    assert (E : map vidseg (order_files mp4) = list_sort (map vidseg mp4)).
    { unfold order_files. apply (@map_rejoin_vidseg mp4), list_sort_perm. }
    split; [|split].
    + unfold order_files.
      rewrite (Permutation_map rejoin (list_sort_perm (map vidseg mp4))).
      rewrite map_map. erewrite map_ext; [rewrite map_id; reflexivity|].
      apply rejoin_vidseg.
    + exact E.
    + rewrite E. apply list_sort_sorted.
  - intros fn. split; [reflexivity|]. split; [apply rejoin_vidseg|apply slice_to_from].
  - intros [a1 a2] [b1 b2]. unfold tuple_le, tuple_ltb, String.ltb, String.leb. simpl.
    rewrite (String.compare_antisym b1 a1), (String.compare_antisym b2 a2).
    destruct (String.compare a1 b1) eqn:E1; simpl.
    + apply String.compare_eq_iff in E1. subst.
      destruct (String.compare a2 b2); simpl; split; intros H;
        try discriminate; try (right; split; reflexivity); try reflexivity;
        destruct H as [H|[_ H]]; discriminate.
    + split; [left; reflexivity|reflexivity].
    + split; [discriminate|]. intros [H|[H _]]; [discriminate|].
      subst. rewrite string_compare_refl in E1. discriminate.
Qed.

(** ** The theorems at concrete inputs *)

Lemma find_time_errors_flags_runs_witness :
  (exists lines time_errors,
     scan_segment
       (mkSegment ([point_at (Some 5%Z)]
                   ++ [point_at (Some 7%Z); point_at (Some 7%Z); point_at (Some 7%Z)]
                   ++ [point_at (Some 9%Z)]))
     = (lines, inr time_errors) /\
     forall j, 1 < j < 1 + 3 ->
       In j time_errors /\ In (OutTimeError (Some 7%Z) j) lines) /\
  (exists lines,
     find_time_errors
       (mkGPX [mkTrack [mkSegment [point_at (Some 7%Z); point_at (Some 7%Z);
                                   point_at (Some 7%Z); point_at (Some 9%Z)]]])
       true
     = (lines,
        inr (mkGPX [mkTrack [mkSegment [point_at (Some 7%Z); point_at (Some 9%Z)]]]))).
Proof.
  split.
  - apply (proj1 find_time_errors_flags_runs
             [point_at (Some 5%Z)]
             [point_at (Some 7%Z); point_at (Some 7%Z); point_at (Some 7%Z)]
             [point_at (Some 9%Z)] (Some 7%Z)).
    + simpl. lia.
    + repeat constructor.
  - apply (proj2 find_time_errors_flags_runs
             (point_at (Some 7%Z)) (point_at (Some 7%Z))
             (point_at (Some 7%Z)) (point_at (Some 9%Z))).
    + reflexivity.
    + reflexivity.
    + discriminate.
Defined.

Lemma find_time_errors_clean_unchanged_witness :
  let gpx :=
    mkGPX [mkTrack [segment_at []; segment_at [None];
                    segment_at [Some 3%Z; Some 4%Z; Some 3%Z]];
           mkTrack [segment_at [Some 1%Z; None; Some 2%Z; Some 5%Z]]] in
  clean_gpx gpx = true /\ find_time_errors gpx true = ([], inr gpx).
Proof.
  split; [reflexivity|].
  apply (proj1 find_time_errors_clean_unchanged). reflexivity.
Defined.

Lemma find_time_errors_missing_timestamps_witness :
  exists reported time_errors lines lines' trkseg',
    scan_segment
      (mkSegment ([point_at (Some 1%Z)]
                  ++ point_at None :: point_at None :: [point_at (Some 2%Z)]))
    = (reported, inr time_errors) /\
    In 2 time_errors /\
    find_time_errors_segment true
      (mkSegment ([point_at (Some 1%Z)]
                  ++ point_at None :: point_at None :: [point_at (Some 2%Z)]))
    = (lines, inr trkseg') /\
    find_time_errors_segment true
      (mkSegment ([point_at (Some 1%Z)] ++ point_at None :: [point_at (Some 2%Z)]))
    = (lines', inr trkseg').
Proof.
  apply (proj1 find_time_errors_missing_timestamps
           [point_at (Some 1%Z)] (point_at None) (point_at None)
           [point_at (Some 2%Z)]); reflexivity.
Defined.

Lemma pipeline_stage_order_witness :
  let '(t, r, _) :=
    run example_handler
        (process_file example_platform "in" "out" (mkElevationData 0) "GX010001.mp4")
        tt in
  r = inr tt /\
  stages t = pipeline_stages /\
  file_pipeline example_platform "in" "out" (mkElevationData 0) "GX010001.mp4"
                (library_events t).
Proof.
  pose proof (proj1 (pipeline_stage_order example_platform) unit example_handler
                "in"%string "out"%string (mkElevationData 0)
                "GX010001.mp4"%string tt) as H.
  assert (E : snd (fst (run example_handler
                          (process_file example_platform "in" "out"
                             (mkElevationData 0) "GX010001.mp4") tt)) = inr tt)
    by (vm_compute; reflexivity).
  destruct (run example_handler _ tt) as [[t r] w]. simpl in E.
  split; [exact E|]. apply H. exact E.
Defined.

Lemma order_files_by_suffix_then_prefix_witness :
  let '(t, r, _) := run example_handler (main example_platform example_argv) tt in
  exists names,
    In (answered (CListdir "in") names) t /\
    extracted t
    = map (fun fn => exiftool_args (path_join example_platform "in" fn))
          (order_files (fnmatch_filter_mp4 example_platform names)).
Proof.
  pose proof (proj2 (proj2 (proj2 (proj2 order_files_by_suffix_then_prefix)))
                example_platform unit example_handler example_argv tt) as H.
  assert (E : snd (fst (run example_handler (main example_platform example_argv) tt))
              = inr tt)
    by (vm_compute; reflexivity).
  destruct (run example_handler _ tt) as [[t r] w]. simpl in E.
  apply H; [simpl; lia|exact E].
Defined.

(** * Further properties of the code *)

(** ** More on the timestamp scanner *)

Lemma clean_segment_fixed trkseg :
  no_adjacent_equal (points trkseg) = true ->
  segment_lines true trkseg = [] /\ cleaned_segment true trkseg = trkseg.
Proof.
  intros H.
  assert (F : flagged_from 0 sentinel (points trkseg) = []).
  { apply no_adjacent_equal_flagged; [exact H|].
    destruct (points trkseg); [exact I|apply py_eq_sentinel]. }
  unfold segment_lines, cleaned_segment.
  rewrite F, (flagged_nil_reported _ _ _ F), (flagged_nil_survivors _ _ _ F).
  destruct trkseg; split; reflexivity.
Qed.

Lemma cleaned_twice gpx :
  gpx_lines true (cleaned true gpx) = [] /\
  cleaned true (cleaned true gpx) = cleaned true gpx.
Proof.
  assert (S : forall seg,
             segment_lines true (cleaned_segment true seg) = [] /\
             cleaned_segment true (cleaned_segment true seg) = cleaned_segment true seg).
  { intros seg. apply clean_segment_fixed. simpl. apply survivors_no_adjacent_equal. }
  split.
  - unfold gpx_lines. rewrite app_nil_r. apply flat_map_all_nil.
    intros trk Ht. rewrite app_nil_r. apply flat_map_all_nil. intros seg Hs.
    simpl in Ht. apply in_map_iff in Ht. destruct Ht as [trk0 [<- _]].
    simpl in Hs. apply in_map_iff in Hs. destruct Hs as [seg0 [<- _]]. apply S.
  - unfold cleaned at 1 3. f_equal. simpl. rewrite map_map. apply map_ext.
    intros trk. unfold cleaned_track. simpl. f_equal. rewrite map_map.
    apply map_ext. intros seg. apply S.
Qed.

(** X1.  [find_time_errors] with [remove=True] is idempotent: run on the
    structure a first call left, it prints nothing and changes nothing. *)
Theorem find_time_errors_idempotent (gpx : GPX) :
  exists lines gpx',
    find_time_errors gpx true = (lines, inr gpx') /\
    find_time_errors gpx' true = ([], inr gpx').
Proof.
  exists (gpx_lines true gpx), (cleaned true gpx).
  split; [apply find_time_errors_eq|].
  rewrite find_time_errors_eq. destruct (cleaned_twice gpx) as [-> ->]. reflexivity.
Qed.


Lemma reported_time_errors pts : forall k last,
  filter is_time_error (reported_from k last pts) = reported_from k last pts /\
  length (reported_from k last pts) = length (flagged_from k last pts).
Proof.
  induction pts as [|p r IH]; intros k last; simpl; [split; reflexivity|].
  destruct (IH (S k) (time_obj (time p))) as [F L].
  destruct (py_eq _ last); simpl; rewrite F, L; split; reflexivity.
Qed.

Lemma segment_lines_time_errors remove trkseg :
  filter is_time_error (segment_lines remove trkseg)
  = reported_from 0 sentinel (points trkseg).
Proof.
  unfold segment_lines. rewrite filter_app.
  rewrite (proj1 (reported_time_errors (points trkseg) 0 sentinel)).
  destruct (is_nonempty _ && remove); simpl; apply app_nil_r.
Qed.

Lemma gpx_lines_time_errors remove gpx :
  filter is_time_error (gpx_lines remove gpx)
  = flat_map (fun seg => reported_from 0 sentinel (points seg)) (gpx_segments gpx).
Proof.
  unfold gpx_lines, gpx_segments. rewrite app_nil_r.
  induction (tracks gpx) as [|trk r IH]; simpl; [reflexivity|].
  rewrite filter_app, IH, app_nil_r, flat_map_app. f_equal.
  induction (segments trk) as [|seg s IHs]; simpl; [reflexivity|].
  rewrite filter_app, IHs, segment_lines_time_errors. reflexivity.
Qed.




(** X3.  With [remove=False] the [Time error] lines are those of
    [remove=True]: the dry run reports exactly what a removal would
    report, without the [Removing] lines. *)
Theorem find_time_errors_dry_run_report (gpx : GPX) :
  fst (find_time_errors gpx false)
  = filter is_time_error (fst (find_time_errors gpx true)).
Proof.
  rewrite !find_time_errors_eq. simpl.
  rewrite gpx_lines_time_errors, <- (gpx_lines_time_errors false).
  unfold gpx_lines. rewrite !app_nil_r.
  induction (tracks gpx) as [|trk r IH]; simpl; [reflexivity|].
  rewrite filter_app, <- IH, !app_nil_r. f_equal.
  induction (segments trk) as [|seg s IHs]; simpl; [reflexivity|].
  rewrite filter_app, <- IHs. f_equal.
  rewrite segment_lines_time_errors. unfold segment_lines.
  rewrite andb_false_r. apply app_nil_r.
Qed.

Lemma cleaned_segmentwise (R : GPXTrackSegment -> GPXTrackSegment -> Prop) gpx :
  (forall seg, R seg (cleaned_segment true seg)) ->
  segmentwise R gpx (cleaned true gpx).
Proof.
  intros HR. unfold segmentwise, cleaned. simpl.
  induction (tracks gpx) as [|trk r IH]; simpl; constructor; [|exact IH].
  simpl. induction (segments trk) as [|seg s IHs]; simpl; constructor; auto.
Qed.

Lemma survivors_subseq pts : forall last, Subseq (survivors last pts) pts.
Proof.
  induction pts as [|p r IH]; intros last; simpl; [constructor|].
  destruct (py_eq _ last); constructor; apply IH.
Qed.

(** X4.  With [remove=True] the structure keeps its tracks and segments
    (a segment is never dropped, even if empty), and each segment keeps
    its surviving points in their order: its point list is the old one
    with some points left out. *)
Theorem find_time_errors_keeps_order (gpx : GPX) :
  exists lines gpx',
    find_time_errors gpx true = (lines, inr gpx') /\
    segmentwise (fun seg seg' => Subseq (points seg') (points seg)) gpx gpx'.
Proof.
  exists (gpx_lines true gpx), (cleaned true gpx).
  split; [apply find_time_errors_eq|].
  apply cleaned_segmentwise. intros seg. simpl. apply survivors_subseq.
Qed.

Lemma survivors_times pts : forall last p,
  In p pts ->
  py_eq (time_obj (time p)) last = true \/
  exists q, In q (survivors last pts) /\ time q = time p.
Proof.
  induction pts as [|a r IH]; intros last p Hin; [contradiction|].
  simpl. destruct Hin as [<-|Hin].
  - destruct (py_eq (time_obj (time a)) last) eqn:E; [left; reflexivity|].
    right. exists a. split; [left|]; reflexivity.
  - destruct (IH (time_obj (time a)) p Hin) as [Heq|[q [Hq Ht]]].
    + destruct (py_eq (time_obj (time a)) last) eqn:E.
      * left. rewrite <- (@py_eq_true_r _ _ _ E). exact Heq.
      * right. exists a. split; [left; reflexivity|].
        symmetry. apply py_eq_time. exact Heq.
    + right. exists q. split; [|exact Ht].
      destruct (py_eq (time_obj (time a)) last); [|right]; exact Hq.
Qed.

(** X5.  Removal loses no timestamp: every timestamp carried by a point
    of a segment is still carried by a point of that segment afterwards. *)
Theorem find_time_errors_keeps_timestamps (gpx : GPX) :
  exists lines gpx',
    find_time_errors gpx true = (lines, inr gpx') /\
    segmentwise (fun seg seg' =>
                   forall p, In p (points seg) ->
                             exists q, In q (points seg') /\ time q = time p)
                gpx gpx'.
Proof.
  exists (gpx_lines true gpx), (cleaned true gpx).
  split; [apply find_time_errors_eq|].
  apply cleaned_segmentwise. intros seg p Hp. simpl.
  destruct (survivors_times (points seg) sentinel p Hp) as [H|H]; [|exact H].
  rewrite py_eq_sentinel in H. discriminate.
Qed.

(** ** More on the renderer *)






(** ** More on the order of the files *)

Lemma tuple_le_refl a : tuple_le a a.
Proof.
  unfold tuple_le. rewrite tuple_ltb_compare.
  destruct (tuple_compare a a) eqn:E; try reflexivity.
  pose proof (tuple_compare_antisym a a) as H. rewrite E in H. discriminate.
Qed.

Lemma tuple_le_antisym a b : tuple_le a b -> tuple_le b a -> a = b.
Proof.
  unfold tuple_le. rewrite !tuple_ltb_compare, (tuple_compare_antisym b a).
  destruct (tuple_compare a b) eqn:E; simpl; try discriminate.
  intros _ _. apply tuple_compare_eq. exact E.
Qed.

(** Two sorted lists with the same elements are the same list. *)
Lemma sorted_perm_unique l1 : forall l2,
  StronglySorted tuple_le l1 -> StronglySorted tuple_le l2 ->
  Permutation l1 l2 -> l1 = l2.
Proof.
  induction l1 as [|x r1 IH]; intros l2 S1 S2 HP.
  - apply Permutation_nil in HP. subst. reflexivity.
  - destruct l2 as [|y r2]; [apply Permutation_sym, Permutation_nil in HP; discriminate|].
    inversion S1 as [|? ? S1' F1]; inversion S2 as [|? ? S2' F2]; subst.
    rewrite Forall_forall in F1, F2.
    assert (Hxy : tuple_le x y).
    { assert (Hin : In y (x :: r1))
        by (apply (Permutation_in _ (Permutation_sym HP)); left; reflexivity).
      destruct Hin as [->|Hin]; [apply tuple_le_refl|apply F1; exact Hin]. }
    assert (Hyx : tuple_le y x).
    { assert (Hin : In x (y :: r2))
        by (apply (Permutation_in _ HP); left; reflexivity).
      destruct Hin as [->|Hin]; [apply tuple_le_refl|apply F2; exact Hin]. }
    pose proof (tuple_le_antisym Hxy Hyx) as E. subst y.
    f_equal. apply IH; try assumption.
    apply Permutation_cons_inv in HP. exact HP.
Qed.

Lemma order_files_perm mp4 : Permutation (order_files mp4) mp4.
Proof.
  unfold order_files.
  rewrite (Permutation_map rejoin (list_sort_perm (map vidseg mp4))).
  rewrite map_map. erewrite map_ext; [rewrite map_id; reflexivity|].
  apply rejoin_vidseg.
Qed.

(** X8.  The order in which the directory lists the files does not
    matter: two listings with the same names are processed in the same
    order.  In particular ordering an ordered list changes nothing. *)
Theorem order_files_listing_order_irrelevant (mp4 mp4' : list string) :
  Permutation mp4 mp4' ->
  order_files mp4 = order_files mp4' /\
  order_files (order_files mp4) = order_files mp4.
Proof.
  assert (H : forall l l', Permutation l l' -> order_files l = order_files l').
  { intros l l' HP. unfold order_files. f_equal.
    apply sorted_perm_unique; try apply list_sort_sorted.
    rewrite !list_sort_perm. apply Permutation_map. exact HP. }
  intros HP. split; [apply H; exact HP|].
  apply H, order_files_perm.
Qed.

Lemma order_files_listing_order_irrelevant_witness :
  Permutation ["GX020001.mp4"; "GX010002.mp4"; "GX010001.mp4"]%string
              ["GX010002.mp4"; "GX010001.mp4"; "GX020001.mp4"]%string /\
  order_files ["GX020001.mp4"; "GX010002.mp4"; "GX010001.mp4"]%string
  = order_files ["GX010002.mp4"; "GX010001.mp4"; "GX020001.mp4"]%string.
Proof.
  assert (HP : Permutation ["GX020001.mp4"; "GX010002.mp4"; "GX010001.mp4"]%string
                           ["GX010002.mp4"; "GX010001.mp4"; "GX020001.mp4"]%string).
  { apply Permutation_sym. eapply perm_trans; [apply perm_skip, perm_swap|].
    apply perm_swap. }
  split; [exact HP|].
  apply (proj1 (order_files_listing_order_irrelevant HP)).
Defined.

Lemma ends_with_eq suffix name :
  ends_with suffix name
  = if String.eqb name suffix then true
    else match name with
         | EmptyString => false
         | String _ r => ends_with suffix r
         end.
Proof. destruct name; reflexivity. Qed.

Lemma ends_with_append suffix pre : ends_with suffix (pre ++ suffix) = true.
Proof.
  induction pre as [|c pre IH]; rewrite ends_with_eq.
  - simpl. rewrite String.eqb_refl. reflexivity.
  - destruct (String.eqb _ suffix); [reflexivity|exact IH].
Qed.

Lemma ends_with_spec suffix name :
  ends_with suffix name = true <-> exists pre, name = (pre ++ suffix)%string.
Proof.
  split; [|intros [pre ->]; apply ends_with_append].
  induction name as [|c r IH]; rewrite ends_with_eq.
  - destruct (String.eqb EmptyString suffix) eqn:E; [|discriminate].
    apply String.eqb_eq in E. subst. intros _. exists EmptyString. reflexivity.
  - destruct (String.eqb (String c r) suffix) eqn:E.
    + apply String.eqb_eq in E. subst. intros _. exists EmptyString. reflexivity.
    + intros H. destruct (IH H) as [pre ->]. exists (String c pre). reflexivity.
Qed.

(** ** More on [main] *)

(** X9.  With fewer than two arguments after the program name, [main]
    returns at once: it makes no call at all, prints nothing and raises
    nothing. *)
Theorem main_too_few_arguments (P : platform) (W : Type) (h : handler W)
  (argv : list string) (w : W) :
  length argv < 3 -> run h (main P argv) w = ([], inr tt, w).
Proof.
  intros H. unfold main.
  replace (length argv <? 3) with true by (symmetry; apply Nat.ltb_lt; exact H).
  reflexivity.
Qed.

Lemma main_too_few_arguments_witness :
  length ["postprocess.py"; "in"]%string < 3 /\
  run example_handler (main example_platform ["postprocess.py"; "in"]%string) tt
  = ([], inr tt, tt).
Proof.
  split; [simpl; lia|].
  apply (main_too_few_arguments example_platform example_handler
           ["postprocess.py"; "in"]%string tt).
  simpl. lia.
Defined.

(** X10.  A run of [main] that ends without an exception has handed to
    exiftool the listed names that match [*.mp4], each as often as it is
    listed, and no other name; a name matches when, after [normcase], it
    ends in [.mp4]. *)
Theorem main_extracts_the_matching_names (P : platform) (W : Type)
  (h : handler W) (argv : list string) (w : W) :
  3 <= length argv ->
  let '(t, r, _) := run h (main P argv) w in
  r = inr tt ->
  exists names processed,
    In (answered (CListdir (nth 1 argv EmptyString)) names) t /\
    extracted t
    = map (fun fn => exiftool_args (path_join P (nth 1 argv EmptyString) fn))
          processed /\
    Permutation processed
                (filter (fun name => ends_with ".mp4" (normcase P name)) names) /\
    forall name,
      In name processed <->
      In name names /\ exists pre, normcase P name = (pre ++ ".mp4")%string.
Proof.
  intros Hlen. pose proof (main_extracts_in_order h P argv w Hlen) as H.
  destruct (run h (main P argv) w) as [[t r] w'].
  intros Hr. destruct (H Hr) as [names [Hin E]].
  exists names, (order_files (fnmatch_filter_mp4 P names)).
  split; [exact Hin|]. split; [exact E|].
  pose proof (order_files_perm (fnmatch_filter_mp4 P names)) as HP.
  split; [exact HP|].
  intros name. split.
  - intros Hn. apply (Permutation_in _ HP) in Hn.
    unfold fnmatch_filter_mp4 in Hn. apply filter_In in Hn.
    destruct Hn as [Hn Hm]. split; [exact Hn|]. apply ends_with_spec. exact Hm.
  - intros [Hn Hm]. apply (Permutation_in _ (Permutation_sym HP)).
    unfold fnmatch_filter_mp4. apply filter_In.
    split; [exact Hn|]. apply ends_with_spec. exact Hm.
Qed.

Lemma main_extracts_the_matching_names_witness :
  let '(t, r, _) := run example_handler (main example_platform example_argv) tt in
  exists names processed,
    In (answered (CListdir "in") names) t /\
    extracted t
    = map (fun fn => exiftool_args (path_join example_platform "in" fn)) processed /\
    Permutation processed
                (filter (fun name => ends_with ".mp4" (normcase example_platform name))
                        names) /\
    forall name,
      In name processed <->
      In name names /\
      exists pre, normcase example_platform name = (pre ++ ".mp4")%string.
Proof.
  pose proof (main_extracts_the_matching_names example_platform example_handler
                example_argv tt) as H.
  assert (E : snd (fst (run example_handler (main example_platform example_argv) tt))
              = inr tt)
    by (vm_compute; reflexivity).
  destruct (run example_handler _ tt) as [[t r] w]. simpl in E.
  apply H; [simpl; lia|exact E].
Defined.

(** ** Runs that raise *)

Ltac halted_at L k :=
  eexists _, _, _, _, _, _, _, _, k, _;
  unfold library_events; simpl; rewrite ?filter_app, ?L; simpl;
  split; [reflexivity|];
  split; [first [ left; reflexivity
                | right;
                  match goal with
                  | |- exists c e, [Ev ?c0 (inl ?e0)] = _ /\ _ =>
                      exists c0, e0; split; reflexivity
                  end ]|];
  split; [split; intros; (discriminate || lia || reflexivity)|];
  split; [lia|];
  first [intros Hk; exfalso; simpl in Hk; lia | intros _; eassumption].

Ltac halted L :=
  first [ halted_at L 0 | halted_at L 1 | halted_at L 2 | halted_at L 3
        | halted_at L 4 | halted_at L 5 | halted_at L 6 | halted_at L 7
        | halted_at L 8 ].

(** Every run of the loop body: the library events are the first [k]
    events of the full sequence, followed by the call that raised, if a
    library call raised. *)
Lemma process_file_events {W} (h : handler W) P indir outdir ed fn w :
  exists gpx_text gpx0 gpx1 gpx2 gpx3 ud md map_obj k failing,
    let full :=
      full_trace P indir outdir ed fn gpx_text gpx0 gpx1 gpx2 gpx3 ud md map_obj in
    let '(t, r, _) := run h (process_file P indir outdir ed fn) w in
    library_events t = firstn k full ++ failing /\
    (failing = [] \/
     exists c e, failing = [Ev c (inl e)] /\
                 nth_error (map ev_call full) k = Some c) /\
    (r = inr tt <-> k = 8) /\
    k <= 8 /\
    (8 <= k + length failing -> overlayGPX P gpx3 14 = inr map_obj).
Proof.
  unfold process_file, full_trace. cbn [pbind perform print].
  simpl run.
  do 5 (call_step h; [halted (@eq_refl nat 0)|]).
  rewrite run_pbind. unfold emit. rewrite find_time_errors_eq.
  simpl fst; simpl snd.
  match goal with
  | |- context [run h (print_all ?l ?r) ?w] =>
      destruct (run_print_all h r l w) as [t_fte [res [w' [E [L R]]]]]
  end.
  rewrite E. unfold library_events in L.
  destruct R as [->|[e ->]]; [|halted L].
  simpl run.
  do 10 (call_step h; [halted L|]).
  destruct (overlayGPX P _ 14) as [e|map_obj] eqn:Eo; simpl run; [halted L|].
  do 2 (call_step h; [halted L|]).
  repeat match goal with
         | u : answer (CSave _ _) |- _ => destruct u
         | u : unit |- _ => destruct u
         end.
  halted L.
  Unshelve.
  all: first [ exact (mkGPX []) | exact EmptyString | exact (mkUD 0 0)
             | exact (mkMD 0 0 0 0 0) | exact (mkMap (0%float, 0%float) 0 []) ].
Qed.

Lemma extracted_app t1 t2 : extracted (t1 ++ t2) = extracted t1 ++ extracted t2.
Proof.
  unfold extracted, library_calls. rewrite library_events_app, map_app.
  apply flat_map_app.
Qed.

Lemma saved_app t1 t2 : saved (t1 ++ t2) = saved t1 ++ saved t2.
Proof. apply flat_map_app. Qed.

(** Printing saves nothing. *)
Lemma saved_library_events t : saved (library_events t) = saved t.
Proof.
  induction t as [|ev r IH]; [reflexivity|].
  unfold library_events in *. simpl.
  destruct ev as [c res]. destruct c; simpl; rewrite ?IH; reflexivity.
Qed.

Lemma overlayGPX_returns_points P gpx zoom map_obj :
  overlayGPX P gpx zoom = inr map_obj -> all_points gpx <> [].
Proof.
  unfold overlayGPX. destruct (all_points gpx); simpl; [discriminate|].
  intros _. discriminate.
Qed.

(** X11.  In every run of the loop body, also one that raises, a map is
    saved only under the name made from the input file's name, and only
    the map [overlayGPX] returned for the track that the vertical smoothing
    left, a track with at least one point. *)
Theorem process_file_saves_only_rendered_map (P : platform) (W : Type)
  (h : handler W) (indir outdir : string) (elevation_data : GeoElevationData)
  (fn : string) (w : W) :
  let '(t, r, _) := run h (process_file P indir outdir elevation_data fn) w in
  forall outfile map_obj,
    In (CSave outfile map_obj) (library_calls t) ->
    outfile = map_fn P outdir fn /\
    exists gpx2 gpx3,
      In (answered (CSmooth true false gpx2) gpx3) t /\
      overlayGPX P gpx3 14 = inr map_obj /\
      all_points gpx3 <> [].
Proof.
  destruct (process_file_events h P indir outdir elevation_data fn w)
    as (gpx_text & gpx0 & gpx1 & gpx2 & gpx3 & ud & md & m & k & failing & H).
  cbv zeta in H.
  destruct (run h (process_file P indir outdir elevation_data fn) w) as [[t r] w'].
  destruct H as (Hev & Hfail & _ & Hk & Hov).
  intros outfile map_obj Hin. unfold library_calls in Hin. rewrite Hev in Hin.
  assert (Hsm : 5 <= k ->
                In (answered (CSmooth true false gpx2) gpx3) t).
  { intros H5.
    assert (Hin' : In (answered (CSmooth true false gpx2) gpx3) (library_events t)).
    { rewrite Hev. apply in_or_app. left.
      do 5 (destruct k as [|k]; [lia|]). simpl. tauto. }
    unfold library_events in Hin'. apply filter_In in Hin'. apply Hin'. }
  assert (Hgoal : 8 <= k + length failing -> 5 <= k ->
                  CSave outfile map_obj = CSave (map_fn P outdir fn) m ->
                  outfile = map_fn P outdir fn /\
                  exists gpx2 gpx3,
                    In (answered (CSmooth true false gpx2) gpx3) t /\
                    overlayGPX P gpx3 14 = inr map_obj /\
                    all_points gpx3 <> []).
  { intros H8 H5 E. injection E as -> ->. split; [reflexivity|].
    exists gpx2, gpx3. split; [apply Hsm; exact H5|].
    split; [apply Hov; exact H8|].
    eapply overlayGPX_returns_points. apply Hov. exact H8. }
  rewrite map_app in Hin. apply in_app_or in Hin.
  destruct Hfail as [->|(c & e & -> & Hnth)]; simpl in Hin.
  - destruct Hin as [Hin|[]].
    do 8 (destruct k as [|k];
          [simpl in Hin; repeat (destruct Hin as [Hin|Hin]; try discriminate);
           contradiction|]).
    destruct k as [|k]; [|lia]. simpl in Hin.
    repeat (destruct Hin as [Hin|Hin]; try discriminate); try contradiction.
    apply Hgoal; [simpl; lia|lia|symmetry; exact Hin].
  - do 8 (destruct k as [|k];
          [simpl in Hin, Hnth; injection Hnth as <-;
           destruct Hin as [Hin|[Hin|[]]];
           [repeat (destruct Hin as [Hin|Hin]; try discriminate); contradiction
           |first [discriminate
                  |apply Hgoal; [simpl; lia|lia|symmetry; exact Hin]]]|]).
    destruct k; simpl in Hnth; discriminate.
Qed.

(** What one pass of the loop body hands to exiftool and saves. *)
Lemma process_file_effects {W} (h : handler W) P indir outdir ed fn w :
  let '(t, r, _) := run h (process_file P indir outdir ed fn) w in
  (r = inr tt ->
   extracted t = [exiftool_args (path_join P indir fn)] /\
   saved t = [map_fn P outdir fn]) /\
  (r <> inr tt ->
   saved t = [] /\
   (extracted t = [] \/ extracted t = [exiftool_args (path_join P indir fn)])).
Proof.
  destruct (process_file_events h P indir outdir ed fn w)
    as (gpx_text & gpx0 & gpx1 & gpx2 & gpx3 & ud & md & m & k & failing & H).
  cbv zeta in H.
  destruct (run h (process_file P indir outdir ed fn) w) as [[t r] w'].
  destruct H as (Hev & Hfail & Hiff & Hk & _).
  unfold extracted, library_calls. rewrite <- (saved_library_events t), Hev.
  destruct Hfail as [->|(c & e & -> & Hnth)];
    do 9 (destruct k as [|k];
          [simpl in *; try (injection Hnth as <-); try discriminate Hnth;
           (split; intros Hr;
            [first [apply Hiff in Hr; discriminate Hr | split; reflexivity]
            |first [exfalso; apply Hr, Hiff; reflexivity
                   |simpl; split;
                    [reflexivity|first [left; reflexivity|right; reflexivity]]]])
          |]); lia.
Qed.

(** The loop over the files, in every run: what was extracted and what was
    saved are beginnings of the list of files, and at most the file that
    raised was extracted without its map being saved. *)
Lemma for_files_effects {W} (h : handler W) (body : string -> prog unit)
  (a : string -> list string) (m : string -> string) :
  (forall fn w,
     let '(t, r, _) := run h (body fn) w in
     (r = inr tt -> extracted t = [a fn] /\ saved t = [m fn]) /\
     (r <> inr tt -> saved t = [] /\ (extracted t = [] \/ extracted t = [a fn]))) ->
  forall l w,
    let '(t, r, _) := run h (for_files l body) w in
    exists j k,
      extracted t = firstn k (map a l) /\
      saved t = firstn j (map m l) /\
      j <= k <= j + 1 /\ k <= length l /\
      (r = inr tt -> j = length l).
Proof.
  intros Hbody. induction l as [|fn rest IH]; intros w; simpl.
  - exists 0, 0. repeat split; lia.
  - rewrite run_pbind. specialize (Hbody fn w).
    destruct (run h (body fn) w) as [[t [e|[]]] w'].
    + destruct Hbody as [_ Hb]. destruct Hb as [Hs [He|He]]; [discriminate| |].
      * exists 0, 0. rewrite He, Hs. repeat split; try lia. discriminate.
      * exists 0, 1. rewrite He, Hs. repeat split; try lia. discriminate.
    + destruct Hbody as [Hb _]. destruct (Hb eq_refl) as [He Hs].
      specialize (IH w').
      destruct (run h (for_files rest body) w') as [[t' r] w''].
      destruct IH as (j & k & He' & Hs' & Hjk & Hkl & Hr).
      exists (S j), (S k). rewrite extracted_app, saved_app, He, Hs, He', Hs'.
      repeat split; try lia. intros Hr'. rewrite (Hr Hr'). reflexivity.
Qed.

(** X12.  [main] stops at the first exception: in every run with two
    directory arguments, what was handed to exiftool is a beginning of the
    ordered list of matching names, the maps saved are those of a
    beginning of that list, and at most one file (the one being processed
    when the exception came) was extracted without its map being saved.
    No later file is touched.  When the run ends without an exception,
    every file was extracted and has its map. *)
Theorem main_stops_at_first_failure (P : platform) (W : Type) (h : handler W)
  (argv : list string) (w : W) :
  3 <= length argv ->
  let '(t, r, _) := run h (main P argv) w in
  exists names j k,
    let mp4 := order_files (fnmatch_filter_mp4 P names) in
    (In (answered (CListdir (nth 1 argv EmptyString)) names) t \/
     (names = [] /\ r <> inr tt)) /\
    extracted t
    = firstn k (map (fun fn => exiftool_args (path_join P (nth 1 argv EmptyString) fn))
                    mp4) /\
    saved t = firstn j (map (map_fn P (nth 2 argv EmptyString)) mp4) /\
    j <= k <= j + 1 /\ k <= length mp4 /\
    (r = inr tt -> j = length mp4).
Proof.
  intros Hlen. unfold main.
  replace (length argv <? 3) with false by (symmetry; apply Nat.ltb_ge; exact Hlen).
  unfold shell. cbn [pbind perform print]. simpl run.
  do 2 (call_step h;
        [exists [], 0, 0; simpl; repeat split; try lia; try discriminate;
         right; split; [reflexivity|discriminate]|]).
  do 3 (call_step h;
        [match goal with
         | x : answer (CListdir _) |- _ => exists x, 0, 0
         | _ => exists [], 0, 0
         end;
         simpl; repeat split; try lia; try discriminate;
         first [left; simpl; tauto | right; split; [reflexivity|discriminate]]|]).
  pose proof (for_files_effects h
                (process_file P (nth 1 argv EmptyString) (nth 2 argv EmptyString) x3)
                (fun fn => exiftool_args (path_join P (nth 1 argv EmptyString) fn))
                (map_fn P (nth 2 argv EmptyString))
                (fun fn w => process_file_effects h P _ _ x3 fn w)
                (order_files (fnmatch_filter_mp4 P x1)) w4) as H.
  destruct (run h (for_files _ _) w4) as [[t r] w'].
  destruct H as (j & k & He & Hs & Hjk & Hkl & Hr).
  exists x1, j, k. cbv zeta.
  split; [left; simpl; tauto|].
  split; [exact He|]. split; [exact Hs|]. repeat split; try lia. exact Hr.
Qed.

Lemma main_stops_at_first_failure_witness :
  let '(t, r, _) := run failing_handler (main example_platform example_argv) 0 in
  r = inl (External "GPXXMLSyntaxException") /\
  extracted t = [exiftool_args "in\GX010001.mp4"; exiftool_args "in\GX020001.mp4"] /\
  saved t = ["out\GX010001_map.html"]%string /\
  exists names j k,
    let mp4 := order_files (fnmatch_filter_mp4 example_platform names) in
    (In (answered (CListdir "in") names) t \/ (names = [] /\ r <> inr tt)) /\
    extracted t
    = firstn k (map (fun fn => exiftool_args (path_join example_platform "in" fn)) mp4) /\
    saved t = firstn j (map (map_fn example_platform "out") mp4) /\
    j <= k <= j + 1 /\ k <= length mp4 /\
    (r = inr tt -> j = length mp4).
Proof.
  pose proof (main_stops_at_first_failure example_platform failing_handler
                example_argv 0) as H.
  assert (E : run failing_handler (main example_platform example_argv) 0
              = (fst (fst (run failing_handler (main example_platform example_argv) 0)),
                 inl (External "GPXXMLSyntaxException"), 2))
    by (vm_compute; reflexivity).
  assert (Ee : extracted (fst (fst (run failing_handler
                                      (main example_platform example_argv) 0)))
               = [exiftool_args "in\GX010001.mp4"; exiftool_args "in\GX020001.mp4"])
    by (vm_compute; reflexivity).
  assert (Es : saved (fst (fst (run failing_handler
                                  (main example_platform example_argv) 0)))
               = ["out\GX010001_map.html"]%string)
    by (vm_compute; reflexivity).
  destruct (run failing_handler _ 0) as [[t r] w]. simpl in Ee, Es.
  injection E as ->. 
  split; [reflexivity|]. split; [exact Ee|]. split; [exact Es|].
  apply H. simpl. lia.
Defined.

(** ** The name of the map file *)

Lemma before_dot_no_dot s :
  forall c, In c (list_ascii_of_string (before_dot s)) -> c <> "."%char.
Proof.
  induction s as [|a r IH]; simpl; [contradiction|].
  destruct (Ascii.eqb a ".") eqn:E; simpl; [contradiction|].
  intros c [<-|H]; [apply Ascii.eqb_neq; exact E|apply IH; exact H].
Qed.

Lemma before_dot_append stem : forall rest,
  (forall c, In c (list_ascii_of_string stem) -> c <> "."%char) ->
  before_dot (stem ++ String "." rest) = stem /\ before_dot stem = stem.
Proof.
  induction stem as [|a r IH]; intros rest H; simpl.
  - split; reflexivity.
  - assert (E : Ascii.eqb a "." = false).
    { apply Ascii.eqb_neq. apply H. left. reflexivity. }
    rewrite E. destruct (IH rest) as [-> ->]; [|split; reflexivity].
    intros c Hc. apply H. right. exact Hc.
Qed.

(** X13.  The name of the map written for an input file is made from the
    name up to its first dot: [fn.split('.')[0]] holds no dot, is [fn]
    itself when [fn] has none, and is all that counts of [fn].  So two
    input files whose names agree up to the first dot are written to the
    same map file. *)
Theorem map_name_from_first_dot (P : platform) (outdir : string) :
  (forall fn c, In c (list_ascii_of_string (before_dot fn)) -> c <> "."%char) /\
  (forall stem rest,
     (forall c, In c (list_ascii_of_string stem) -> c <> "."%char) ->
     before_dot stem = stem /\
     before_dot (stem ++ String "." rest) = stem /\
     map_fn P outdir (stem ++ String "." rest)
     = path_join P outdir (stem ++ "_map.html")%string).
Proof.
  split; [intros fn; apply before_dot_no_dot|].
  intros stem rest H. destruct (before_dot_append stem rest H) as [E1 E2].
  split; [exact E2|]. split; [exact E1|]. unfold map_fn. rewrite E1. reflexivity.
Qed.

Lemma map_name_from_first_dot_witness :
  map_fn example_platform "out" "GX01.0001.mp4" = "out\GX01_map.html"%string /\
  map_fn example_platform "out" "GX01.0002.mp4" = "out\GX01_map.html"%string.
Proof.
  split.
  - apply (proj2 (map_name_from_first_dot example_platform "out")
             "GX01"%string "0001.mp4"%string).
    intros c Hc. simpl in Hc.
    repeat (destruct Hc as [<-|Hc]; [discriminate|]). contradiction.
  - apply (proj2 (map_name_from_first_dot example_platform "out")
             "GX01"%string "0002.mp4"%string).
    intros c Hc. simpl in Hc.
    repeat (destruct Hc as [<-|Hc]; [discriminate|]). contradiction.
Defined.

(** ** [format_time] *)

Lemma zero_padded_length width : forall n, String.length (zero_padded width n) = width.
Proof.
  induction width as [|w IH]; intros n; simpl; [reflexivity|].
  assert (L : forall a b, String.length (a ++ b) = String.length a + String.length b).
  { intros a b. induction a as [|c a IHa]; simpl; [reflexivity|]. rewrite IHa. reflexivity. }
  rewrite L, IH. simpl. lia.
Qed.

Lemma string_app_assoc (a b c : string) : ((a ++ b) ++ c = a ++ (b ++ c))%string.
Proof. induction a as [|x a IH]; simpl; [reflexivity|]. rewrite IH. reflexivity. Qed.

Lemma string_length_app (a b : string) :
  String.length (a ++ b) = String.length a + String.length b.
Proof. induction a as [|c a IH]; simpl; [reflexivity|]. rewrite IH. reflexivity. Qed.

(** The digits split: the leading digits are those of the quotient. *)
Lemma zero_padded_split low : forall high n,
  (0 <= n)%Z ->
  zero_padded (high + low) n
  = (zero_padded high (n / 10 ^ Z.of_nat low) ++ zero_padded low n)%string.
Proof.
  induction low as [|l IH]; intros high n Hn.
  - rewrite Nat.add_0_r. simpl. rewrite Z.div_1_r.
    induction (zero_padded high n) as [|c s IHs]; simpl; [reflexivity|].
    rewrite <- IHs. reflexivity.
  - replace (high + S l) with (S (high + l)) by lia.
    replace (10 ^ Z.of_nat (S l))%Z with (10 * 10 ^ Z.of_nat l)%Z
      by (rewrite Nat2Z.inj_succ, Z.pow_succ_r; lia).
    cbn [zero_padded]. rewrite IH by (apply Z.div_pos; lia).
    rewrite string_app_assoc, Z.div_div by lia. reflexivity.
Qed.

Lemma slice_to_app (a b : string) : slice_to (String.length a) (a ++ b) = a.
Proof. induction a as [|c a IH]; simpl; [destruct b; reflexivity|]. rewrite IH. reflexivity. Qed.

Lemma milliseconds_only t :
  (0 <= microsecond t)%Z ->
  slice_to 4 (strftime_fraction t)
  = ("." ++ zero_padded 3 (microsecond t / 1000))%string.
Proof.
  intros H. unfold strftime_fraction.
  change (zero_padded 6 (microsecond t)) with (zero_padded (3 + 3) (microsecond t)).
  rewrite (@zero_padded_split 3 3 (microsecond t) H).
  change (10 ^ Z.of_nat 3)%Z with 1000%Z.
  change ("." ++ zero_padded 3 (microsecond t / 1000) ++ zero_padded 3 (microsecond t))%string
    with (("." ++ zero_padded 3 (microsecond t / 1000)) ++ zero_padded 3 (microsecond t))%string.
  rewrite <- (slice_to_app ("." ++ zero_padded 3 (microsecond t / 1000))
                           (zero_padded 3 (microsecond t))) at 2.
  reflexivity.
Qed.

(** X14.  [format_time] writes the seconds, then, only if the microsecond
    field is not zero, a dot and exactly three digits, the milliseconds
    cut off (not rounded; a value below one millisecond gives [.000]),
    then [Z] for a naive value or a zero offset and the [%z] offset
    otherwise. *)
Theorem format_time_milliseconds (t : datetime_fields) :
  (0 <= microsecond t)%Z ->
  format_time t
  = (strftime_seconds t
     ++ (if (microsecond t =? 0)%Z then EmptyString
         else "." ++ zero_padded 3 (microsecond t / 1000))
     ++ match utcoffset t with
        | None => "Z"
        | Some offset => if (offset =? 0)%Z then "Z" else strftime_z t
        end)%string.
Proof.
  intros H. unfold format_time. rewrite (milliseconds_only t H).
  destruct (microsecond t =? 0)%Z; simpl negb; cbv iota;
    destruct (utcoffset t) as [o|]; simpl no_offset;
    rewrite ?orb_false_r; reflexivity.
Qed.

Lemma format_time_milliseconds_witness :
  format_time (mkDatetime 2023 7 4 9 5 3 999999 (Some 0%Z))
  = "2023-07-04T09:05:03.999Z"%string /\
  format_time (mkDatetime 2023 7 4 9 5 3 500 None)
  = "2023-07-04T09:05:03.000Z"%string.
Proof.
  split.
  - rewrite (format_time_milliseconds (mkDatetime 2023 7 4 9 5 3 999999 (Some 0%Z)))
      by (simpl; lia).
    reflexivity.
  - rewrite (format_time_milliseconds (mkDatetime 2023 7 4 9 5 3 500 None))
      by (simpl; lia).
    reflexivity.
Defined.

(** X15.  For a four-digit year and a naive value or one at offset zero,
    the text [format_time] returns has 20 characters when the microsecond
    field is zero and 24 otherwise. *)
Theorem format_time_utc_length (t : datetime_fields) :
  (1000 <= year t <= 9999)%Z ->
  no_offset (utcoffset t) = true ->
  String.length (format_time t)
  = if (microsecond t =? 0)%Z then 20 else 24.
Proof.
  intros _ H. unfold format_time. rewrite H.
  unfold strftime_seconds, strftime_fraction.
  destruct (microsecond t =? 0)%Z; simpl negb; cbv iota;
    rewrite ?string_length_app; simpl;
    repeat (rewrite ?string_length_app, ?zero_padded_length; simpl);
    reflexivity.
Qed.

Lemma format_time_utc_length_witness :
  String.length (format_time (mkDatetime 2023 7 4 9 5 3 0 None)) = 20 /\
  String.length (format_time (mkDatetime 2023 7 4 9 5 3 120000 (Some 0%Z))) = 24.
Proof.
  split.
  - apply (format_time_utc_length (mkDatetime 2023 7 4 9 5 3 0 None));
      [simpl; lia|reflexivity].
  - apply (format_time_utc_length (mkDatetime 2023 7 4 9 5 3 120000 (Some 0%Z)));
      [simpl; lia|reflexivity].
Defined.

(** ** [showtree] *)




(** ** Segments with one timestamp *)

Lemma survivors_same_time rest : forall tm,
  Forall (fun q => time q = tm) rest -> survivors (time_obj tm) rest = [].
Proof.
  induction rest as [|q r IH]; intros tm H; simpl; [reflexivity|].
  inversion H as [|? ? Hq Hr]; subst.
  replace (py_eq (time_obj (time q)) (time_obj (time q))) with true
    by (symmetry; apply py_eq_time; reflexivity).
  apply IH. exact Hr.
Qed.

(** X17.  A segment whose points all carry one timestamp (or all lack
    one) is reduced by [find_time_errors(gpx, remove=True)] to its first
    point. *)
Theorem find_time_errors_collapses_uniform_segment
  (p : GPXTrackPoint) (rest : list GPXTrackPoint) :
  Forall (fun q => time q = time p) rest ->
  exists lines,
    find_time_errors (mkGPX [mkTrack [mkSegment (p :: rest)]]) true
    = (lines, inr (mkGPX [mkTrack [mkSegment [p]]])).
Proof.
  intros H. eexists. rewrite find_time_errors_eq. f_equal. f_equal.
  unfold cleaned, cleaned_track, cleaned_segment. simpl.
  rewrite py_eq_sentinel, (survivors_same_time H). reflexivity.
Qed.

Lemma find_time_errors_collapses_uniform_segment_witness :
  exists lines,
    find_time_errors
      (mkGPX [mkTrack [mkSegment (point_at None :: [point_at None; point_at None])]])
      true
    = (lines, inr (mkGPX [mkTrack [mkSegment [point_at None]]])).
Proof.
  apply (@find_time_errors_collapses_uniform_segment
           (point_at None) [point_at None; point_at None]).
  repeat constructor.
Defined.

Lemma process_file_saves_only_rendered_map_witness :
  let '(t, r, _) :=
    run example_handler
        (process_file example_platform "in" "out" (mkElevationData 0) "GX010001.mp4")
        tt in
  exists map_obj gpx2 gpx3,
    In (CSave (map_fn example_platform "out" "GX010001.mp4") map_obj) (library_calls t) /\
    In (answered (CSmooth true false gpx2) gpx3) t /\
    overlayGPX example_platform gpx3 14 = inr map_obj /\
    all_points gpx3 <> [].
Proof.
  pose proof (process_file_saves_only_rendered_map example_platform example_handler
                "in"%string "out"%string (mkElevationData 0)
                "GX010001.mp4"%string tt) as H.
  assert (E : exists m,
             In (CSave (map_fn example_platform "out" "GX010001.mp4") m)
                (library_calls
                   (fst (fst (run example_handler
                                  (process_file example_platform "in" "out"
                                     (mkElevationData 0) "GX010001.mp4") tt))))).
  { vm_compute. eexists. do 7 right. left. reflexivity. }
  destruct (run example_handler _ tt) as [[t r] w]. simpl in E.
  destruct E as [m Hm].
  destruct (H _ _ Hm) as [_ (gpx2 & gpx3 & H1 & H2 & H3)].
  exists m, gpx2, gpx3. repeat split; assumption.
Defined.
